(** * featureReport: node selection and state/feature/GRES aggregation

    A shallow embedding of [carriero/featureReport.py].  The script reads a
    snapshot of the cluster (nodes, running jobs, a uid-to-user table),
    keeps the nodes for which a boolean expression over feature (or GRES)
    tokens holds, files every such node under its state, its primary
    feature and its GRES types, and prints per-bucket totals.

    Python values are modelled as the script uses them: [str] as [string],
    [dict] as [gmap string _], pyslurm's [hostlist] as the ordered list of
    the host names pushed to it, exceptions and the two output streams by a
    small state-and-error monad. *)

From Stdlib Require Import ZArith Ascii String DecimalString.
From stdpp Require Import base decidable option list sorting strings gmap fin_maps.

Local Open Scope string_scope.
Local Open Scope list_scope.
Local Open Scope Z_scope.

(** ** Python string primitives *)

Module Py.

(** [s1 + s2 + ...] over the characters of [s]. *)
Fixpoint flat_map_chars (f : ascii → string) (s : string) : string :=
  match s with
  | "" => ""
  | String c s' => f c +:+ flat_map_chars f s'
  end.

(** [old.join(s)]-like interleaving used by [replace] on an empty pattern. *)
Fixpoint after_each (new s : string) : string :=
  match s with
  | "" => ""
  | String c s' => String c (new +:+ after_each new s')
  end.

(** The left-to-right scan of [str.replace]: at each position either the
    pattern starts here, [new] is emitted and the pattern's characters
    are skipped, or the character is copied. *)
Fixpoint replace_go (old new : string) (skip : nat) (s : string) : string :=
  match s with
  | "" => ""
  | String c s' =>
      match skip with
      | S k => replace_go old new k s'
      | O =>
          if String.prefix old s
          then new +:+ replace_go old new (String.length old - 1)%nat s'
          else String c (replace_go old new 0%nat s')
      end
  end.

(** [s.replace(old, new)]: every non-overlapping occurrence, leftmost
    first. *)
Definition replace (old new s : string) : string :=
  match old with
  | "" => new +:+ after_each new s
  | _ => replace_go old new 0%nat s
  end.

(** [s.startswith(p)]. *)
Definition startswith (s p : string) : bool := String.prefix p s.

(** [sub in s] for two strings: substring test. *)
Fixpoint contains (sub s : string) : bool :=
  String.prefix sub s ||
  match s with
  | "" => false
  | String _ s' => contains sub s'
  end.

(** [s.split(sep, maxsplit)] for a one-character separator. *)
Fixpoint splitn (sep : ascii) (maxsplit : nat) (s : string) : list string :=
  match s with
  | "" => [""]
  | String c s' =>
      if decide (c = sep) then
        match maxsplit with
        | O => [s]
        | S k => "" :: splitn sep k s'
        end
      else
        match splitn sep maxsplit s' with
        | w :: ws => String c w :: ws
        | [] => [String c ""]
        end
  end.

(** [s.split(sep)]: no bound on the number of splits. *)
Definition split (sep : ascii) (s : string) : list string :=
  splitn sep (String.length s) s.

End Py.

(** ** Exceptions and the error monad *)

(** The exceptions the script can raise on the modelled paths. *)
Inductive exn :=
  | KeyError
  | IndexError
  | AttributeError
  | TypeError
  | UnboundLocalError
  | SystemExit.

Inductive result (A : Type) : Type :=
  | Ok (a : A)
  | Raise (e : exn).
Arguments Ok {A} a.
Arguments Raise {A} e.

#[global] Instance result_ret : MRet result := @Ok.
#[global] Instance result_bind : MBind result := λ A B f m,
  match m with
  | Ok a => f a
  | Raise e => Raise e
  end.
#[global] Instance result_fmap : FMap result := λ A B f m,
  match m with
  | Ok a => Ok (f a)
  | Raise e => Raise e
  end.

#[global] Instance exn_eq_dec : EqDecision exn.
Proof. solve_decision. Defined.

#[global] Instance result_eq_dec {A} `{EqDecision A} : EqDecision (result A).
Proof. solve_decision. Defined.

(** [l[i]] on a Python list. *)
Definition index {A} (l : list A) (i : nat) : result A :=
  match l !! i with
  | Some x => Ok x
  | None => Raise IndexError
  end.

(** ** The snapshot *)

(** [n['features']] is a comma-separated string in the sample data; the
    extractor also accepts a list of such strings, and tolerates the key
    being absent. *)
Inductive features_field :=
  | FeatStr (s : string)
  | FeatList (l : list string).

(** The fields of a pyslurm node record that the script reads. *)
Record node := {
  name : string;
  features : option features_field;
  gres : list string;
  gres_used : list string;
  cpus : Z;
  alloc_cpus : Z;
  state : string;
}.

(** The fields of a running job that the script reads. *)
Record job := {
  partition : string;
  user_id : Z;
}.

(** pyslurm's hostlist holding plain host names: the names in the order
    they were pushed. *)
Abbreviation hostlist := (list string).

Definition inithl : hostlist := [].

(** [hl.push(h)] *)
Definition push (hl : hostlist) (h : string) : hostlist := hl ++ [h].

(** One pass over a sorted list dropping repeated neighbours. *)
Fixpoint drop_repeats (l : list string) : list string :=
  match l with
  | [] => []
  | x :: l' =>
      match l' with
      | [] => [x]
      | y :: _ => if decide (x = y) then drop_repeats l' else x :: drop_repeats l'
      end
  end.

(** [hl.uniq()]: sort the list and remove duplicate entries. *)
Definition uniq (hl : hostlist) : hostlist :=
  drop_repeats (merge_sort String.le hl).

(** [hl.count()] *)
Definition count (hl : hostlist) : Z := Z.of_nat (length hl).

(** [hl.get_list()] *)
Definition get_list (hl : hostlist) : list string := hl.

(** ** Feature and GRES extraction *)

Definition getInfoFeatures (n : node) : list string :=
  let lfl :=
    match features n with
    | None => []
    | Some (FeatList l) => l
    | Some (FeatStr s) => [s]
    end in
  fl ← lfl; Py.split "," fl.

Definition getInfoGres (n : node) : result (list string) :=
  match gres n with
  | [] => Ok []
  | lgl => mapM (λ g, index (Py.splitn ":" 2%nat g) 1%nat) (gl ← lgl; Py.split "," gl)
  end.

(** [getInfo = getInfoGres if args.gres else getInfoFeatures] *)
Definition getInfo (gres_mode : bool) (n : node) : result (list string) :=
  if gres_mode then getInfoGres n else Ok (getInfoFeatures n).

(** ** The expression over tokens *)

(** [args.features]: no words stand for the literal [True], several words
    are joined with blanks. *)
Fixpoint join (sep : string) (ws : list string) : string :=
  match ws with
  | [] => ""
  | [w] => w
  | w :: ws' => w +:+ sep +:+ join sep ws'
  end.

Definition expression (words : list string) : string :=
  match words with
  | [] => "True"
  | _ => join " " words
  end.

(** The three characters a token may hold that an identifier may not are
    spelled out before the expression is compiled. *)
Definition sanitize (e : string) : string :=
  Py.replace ":" "___colon___"
    (Py.replace "+" "___plus___"
      (Py.replace "-" "___minus___" e)).

(** The inverse spelling, applied to every name of the compiled
    expression when it is bound. *)
Definition unescape (f : string) : string :=
  Py.replace "___colon___" ":"
    (Py.replace "___plus___" "+"
      (Py.replace "___minus___" "-" f)).

(** Python's [compile(..., 'eval')] and [eval] are modelled on the boolean
    fragment of the expression language: names, [True], [False], [not],
    [and], [or] and parentheses.  A text outside the fragment has no code
    in the model, and the model says nothing about the run on it. *)
Inductive expr :=
  | EName (x : string)
  | ETrue
  | EFalse
  | ENot (e : expr)
  | EAnd (e1 e2 : expr)
  | EOr (e1 e2 : expr).

Inductive token :=
  | TName (x : string)
  | TTrue
  | TFalse
  | TNot
  | TAnd
  | TOr
  | TLParen
  | TRParen.

Definition between (lo hi : nat) (c : ascii) : bool :=
  let n := nat_of_ascii c in
  (lo <=? n)%nat && (n <=? hi)%nat.

Definition is_digit (c : ascii) : bool := between 48 57 c.

Definition is_ident_char (c : ascii) : bool :=
  between 97 122 c || between 65 90 c || is_digit c || bool_decide (c = "_"%char).

Definition is_blank (c : ascii) : bool :=
  bool_decide (c = " "%char) || bool_decide (c = "009"%char).

(** Reserved words that are neither operators nor constants of the
    fragment: an expression using one is outside the model.  So is one
    using [__debug__], which Python compiles to a constant. *)
Definition other_keywords : list string :=
  ["None"; "as"; "assert"; "async"; "await"; "break"; "class"; "continue";
   "def"; "del"; "elif"; "else"; "except"; "finally"; "for"; "from";
   "global"; "if"; "import"; "in"; "is"; "lambda"; "nonlocal"; "pass";
   "raise"; "return"; "try"; "while"; "with"; "yield"].

Definition word_token (w : string) : option token :=
  if decide (w = "True") then Some TTrue
  else if decide (w = "False") then Some TFalse
  else if decide (w = "not") then Some TNot
  else if decide (w = "and") then Some TAnd
  else if decide (w = "or") then Some TOr
  else if bool_decide (w ∈ other_keywords) then None
  else if decide (w = "__debug__") then None
  else match w with
       | "" => None
       | String c _ => if is_digit c then None else Some (TName w)
       end.

(** Close the word being read, if any, and put its token in front. *)
Definition flush (cur : option string) (ts : list token) : option (list token) :=
  match cur with
  | None => Some ts
  | Some w => t ← word_token (String.rev w); Some (t :: ts)
  end.

Fixpoint tokenize_go (cur : option string) (s : string) : option (list token) :=
  match s with
  | "" => flush cur []
  | String c s' =>
      if is_ident_char c then
        tokenize_go (Some (String c (default "" cur))) s'
      else if is_blank c then
        ts ← tokenize_go None s'; flush cur ts
      else if decide (c = "("%char) then
        ts ← tokenize_go None s'; flush cur (TLParen :: ts)
      else if decide (c = ")"%char) then
        ts ← tokenize_go None s'; flush cur (TRParen :: ts)
      else None
  end.

(** An expression may not start with a blank. *)
Definition tokenize (s : string) : option (list token) :=
  match s with
  | "" => None
  | String c _ => if is_blank c then None else tokenize_go None s
  end.

Inductive level := LOr | LAnd | LNot.

(** Recursive descent over [or_test], [and_test], [not_test] and atoms;
    [fuel] bounds the nesting of calls. *)
Fixpoint parse (fuel : nat) (lv : level) (ts : list token) : option (expr * list token) :=
  match fuel with
  | O => None
  | S f =>
      match lv with
      | LOr =>
          '(e1, r) ← parse f LAnd ts;
          match r with
          | TOr :: r' => '(e2, r2) ← parse f LOr r'; Some (EOr e1 e2, r2)
          | _ => Some (e1, r)
          end
      | LAnd =>
          '(e1, r) ← parse f LNot ts;
          match r with
          | TAnd :: r' => '(e2, r2) ← parse f LAnd r'; Some (EAnd e1 e2, r2)
          | _ => Some (e1, r)
          end
      | LNot =>
          match ts with
          | TNot :: r => '(e, r') ← parse f LNot r; Some (ENot e, r')
          | TName x :: r => Some (EName x, r)
          | TTrue :: r => Some (ETrue, r)
          | TFalse :: r => Some (EFalse, r)
          | TLParen :: r =>
              '(e, r') ← parse f LOr r;
              match r' with
              | TRParen :: r2 => Some (e, r2)
              | _ => None
              end
          | _ => None
          end
      end
  end.

(** The opening parentheses and the negations of a token list bound the
    depth of the expression.  CPython refuses more than 200 nested
    parentheses and its older parsers give up earlier; the model stops
    well below either limit. *)
Fixpoint nesting (ts : list token) : nat :=
  match ts with
  | [] => 0
  | (TLParen | TNot) :: ts' => S (nesting ts')
  | _ :: ts' => nesting ts'
  end.

Definition max_nesting : nat := 50.

(** [compile(sanitized, '<argument string>', 'eval')] on the fragment: the
    code of an expression of the fragment.  [None] is no verdict of its
    own: the text is refused by Python or lies outside the fragment, and
    [syntax_error] tells when it is known to be refused. *)
Definition compile (s : string) : option expr :=
  ts ← tokenize s;
  if (max_nesting <? nesting ts)%nat then None
  else
    '(e, r) ← parse (3 * length ts + 3) LOr ts;
    match r with
    | [] => Some e
    | _ => None
    end.

(** A parenthesis that opens a call, after a name, a constant or a closing
    parenthesis, or that opens the empty tuple: Python compiles both, and
    the fragment has neither. *)
Fixpoint applies (after_atom : bool) (ts : list token) : bool :=
  match ts with
  | [] => false
  | TLParen :: ts' =>
      after_atom || match ts' with TRParen :: _ => true | _ => false end
      || applies false ts'
  | (TName _ | TTrue | TFalse | TRParen) :: ts' => applies true ts'
  | (TNot | TAnd | TOr) :: ts' => applies false ts'
  end.

(** The texts on which [compile] is known to raise [SyntaxError] (or its
    subclass [IndentationError], for a text that starts with a blank): they
    are made of the characters and words of the fragment, open no call and
    no empty tuple, stay below the nesting bound, and are not an expression
    of the fragment.  Over these tokens Python's grammar adds only calls
    and the empty tuple to the fragment. *)
Definition syntax_error (s : string) : bool :=
  match tokenize_go None s with
  | Some ts =>
      negb (applies false ts) && (nesting ts <=? max_nesting)%nat &&
      match compile s with
      | None => true
      | Some _ => false
      end
  | None => false
  end.

Fixpoint names (e : expr) : list string :=
  match e with
  | EName x => [x]
  | ETrue | EFalse => []
  | ENot e => names e
  | EAnd e1 e2 | EOr e1 e2 => names e1 ++ names e2
  end.

(** [fexp.co_names]: each name once, in order of first use. *)
Definition co_names (e : expr) : list string :=
  foldl (λ acc x, if bool_decide (x ∈ acc) then acc else acc ++ [x]) [] (names e).

(** [eval(fexp, {'__builtins__': None}, locals)]: a name is looked up in
    [locals]; for a name that is not bound there the lookup goes on to the
    built-ins, which are [None], and subscripting [None] raises
    [TypeError].  [and] and [or] stop at the operand that decides. *)
Fixpoint eval (e : expr) (locals : gmap string bool) : result bool :=
  match e with
  | EName x =>
      match locals !! x with
      | Some b => Ok b
      | None => Raise TypeError
      end
  | ETrue => Ok true
  | EFalse => Ok false
  | ENot e => b ← eval e locals; Ok (negb b)
  | EAnd e1 e2 => b ← eval e1 locals; if b : bool then eval e2 locals else Ok false
  | EOr e1 e2 => b ← eval e1 locals; if b : bool then Ok true else eval e2 locals
  end.

(** The bindings of one node: every name of the expression is true iff
    its unescaped spelling is one of the node's tokens. *)
Definition node_locals (fexp : expr) (ns : gset string) : gmap string bool :=
  list_to_map ((λ f, (f, bool_decide (unescape f ∈ ns))) <$> co_names fexp).

(** The test of the selection loop for one node. *)
Definition qualifies (gres_mode : bool) (fexp : expr) (n : node) : result bool :=
  toks ← getInfo gres_mode n;
  let ns : gset string := list_to_set toks in
  eval fexp (node_locals fexp ns).

(** ** Selection and bucketing of the nodes *)

(** A node that is powering down or awaits a reboot is filed under its
    plain state. *)
Definition norm_state (s : string) : string :=
  Py.replace "@" "" (Py.replace "+POWER" "" s).

(** The three [defaultdict]s of host lists. *)
Record buckets := {
  state2hl : gmap string hostlist;
  state2f02hl : gmap string (gmap string hostlist);
  state2gres2hl : gmap string (gmap string hostlist);
}.

Definition no_buckets : buckets :=
  {| state2hl := ∅; state2f02hl := ∅; state2gres2hl := ∅ |}.

(** [d[k]] on a [defaultdict]: the stored value or the factory's. *)
Definition dd_get {V} (dflt : V) (d : gmap string V) (k : string) : V :=
  default dflt (d !! k).

(** [d[s].push(h)] *)
Definition push1 (d : gmap string hostlist) (s h : string) : gmap string hostlist :=
  <[s := push (dd_get inithl d s) h]> d.

(** [d[s][f].push(h)] *)
Definition push2 (d : gmap string (gmap string hostlist)) (s f h : string)
    : gmap string (gmap string hostlist) :=
  <[s := push1 (dd_get ∅ d s) f h]> d.

Definition location_sentinel : string := "location=local".

(** [n['features'].split(',')] *)
Definition features_split (n : node) : result (list string) :=
  match features n with
  | None => Raise KeyError
  | Some (FeatList _) => Raise AttributeError
  | Some (FeatStr fs) => Ok (Py.split "," fs)
  end.

(** Body of the loop over [nodes.values()]. *)
Definition visit (gres_mode : bool) (fexp : expr) (b : buckets) (n : node) : result buckets :=
  q ← qualifies gres_mode fexp n;
  if q : bool then
    let node_name := name n in
    let s := norm_state (state n) in
    let hl1 := push1 (state2hl b) s node_name in
    ff ← features_split n;
    feature0 ← index ff 0;
    feature ← (if decide (feature0 = location_sentinel) then index ff 1 else Ok feature0);
    let f02 := push2 (state2f02hl b) s feature node_name in
    if gres_mode then
      Ok {| state2hl := hl1; state2f02hl := f02; state2gres2hl := state2gres2hl b |}
    else
      gl ← getInfoGres n;
      let gs : gset string := list_to_set gl in
      let g2 :=
        foldl (λ d g, if decide (g = "") then d else push2 d s g node_name)
              (state2gres2hl b) (elements gs) in
      Ok {| state2hl := hl1; state2f02hl := f02; state2gres2hl := g2 |}
  else Ok b.

Fixpoint for_each {A S} (f : S → A → result S) (l : list A) (s : S) : result S :=
  match l with
  | [] => Ok s
  | x :: l' => s' ← f s x; for_each f l' s'
  end.

(** [d.values()] *)
Definition values {V} (d : gmap string V) : list V := (map_to_list d).*2.

Definition select (gres_mode : bool) (fexp : expr) (nodes : gmap string node) : result buckets :=
  for_each (visit gres_mode fexp) (values nodes) no_buckets.

(** ** Output and the monad of the reporting part *)

Inductive count_by := ByPartition | ByUser.

(** One line of a bucket: its key, node count, CPU total and allocation,
    the GPU pair when shown, the job counts and the hosts when asked. *)
Record line := {
  label : string;
  n_nodes : Z;
  l_cpus : Z;
  l_cpus_allocated : Z;
  gpu_info : option (Z * Z);
  job_summary : list (string * Z);
  node_list : option (list string);
}.

Inductive row :=
  | StateLine (l : line)
  | FeatureLine (l : line)
  | GresLine (l : line)
  | TotalLine (nodes cpus cpus_allocated : Z) (gpus : option (Z * Z))
  | PrefixLine (per_state : list (string * Z * Z)).

Inductive diag :=
  | SyntaxErrorIn (e : string)
  | UnknownUser (j : job)
  | Skipping (h gres_used : string) (node_gres node_gres_used : list string) (e : exn).

Inductive event :=
  | Stdout (r : row)
  | Stderr (d : diag).

(** What was printed so far, and the value or the exception. *)
Definition io (A : Type) : Type := list event * result A.

#[global] Instance io_ret : MRet io := λ A a, ([], Ok a).
#[global] Instance io_bind : MBind io := λ A B f m,
  match m with
  | (l, Ok a) => let '(l', r) := f a in (l ++ l', r)
  | (l, Raise e) => (l, Raise e)
  end.

Definition print (ev : event) : io unit := ([ev], Ok ()).

Definition lift {A} (r : result A) : io A := ([], r).

(** [try: m except Exception as e: h e] *)
Definition try_except {A} (m : io A) (h : exn → io A) : io A :=
  match m with
  | (l, Raise e) => let '(l', r) := h e in (l ++ l', r)
  | ok => ok
  end.

Fixpoint io_for_each {A S} (f : S → A → io S) (l : list A) (s : S) : io S :=
  match l with
  | [] => mret s
  | x :: l' => s' ← f s x; io_for_each f l' s'
  end.

(** ** Totals of one host list *)

(** [for x in l: if p(x): break], as an assignment to the loop variable
    [x]: it keeps its old binding when [l] is empty, and is the last
    element when nothing breaks the loop. *)
Fixpoint for_break (p : string → bool) (l : list string) (x : option string) : option string :=
  match l with
  | [] => x
  | y :: l' => if p y then Some y else for_break p l' (Some y)
  end.

(** Longest prefix whose characters satisfy [p], and the rest. *)
Fixpoint span (p : ascii → bool) (s : string) : string * string :=
  match s with
  | "" => ("", "")
  | String c s' =>
      if p c then let '(a, b) := span p s' in (String c a, b) else ("", s)
  end.

(** [gpu:[^:]+:([0-9]+)] matched at the start of [s]: group 1. *)
Definition gpuCountRe_match (s : string) : option string :=
  match s with
  | String "g" (String "p" (String "u" (String ":" r))) =>
      match span (λ c, negb (bool_decide (c = ":"%char))) r with
      | ("", _) => None
      | (_, String ":" r2) =>
          match span is_digit r2 with
          | ("", _) => None
          | (d, _) => Some d
          end
      | _ => None
      end
  | _ => None
  end.

(** [gpuCountRe.search(s)]: the leftmost match. *)
Fixpoint gpuCountRe_search (s : string) : option string :=
  match gpuCountRe_match s with
  | Some d => Some d
  | None =>
      match s with
      | "" => None
      | String _ s' => gpuCountRe_search s'
      end
  end.

(** [int(d)] on a string of decimal digits. *)
Definition int_of_digits (d : string) : Z :=
  foldl (λ acc c, 10 * acc + (Z.of_nat (nat_of_ascii c) - 48)) 0 (list_ascii_of_string d).

(** [int(gpuCountRe.search(v).group(1))] for a local variable [v]. *)
Definition gpu_count (v : option string) : result Z :=
  match v with
  | None => Raise UnboundLocalError
  | Some g =>
      match gpuCountRe_search g with
      | Some d => Ok (int_of_digits d)
      | None => Raise AttributeError
      end
  end.

(** [x in n['features']]: a substring test on a string, membership on a
    list. *)
Definition py_in (x : string) (f : features_field) : bool :=
  match f with
  | FeatStr s => Py.contains x s
  | FeatList l => bool_decide (x ∈ l)
  end.

Definition signals_gpu (n : node) : result bool :=
  match features n with
  | None => Raise KeyError
  | Some f => Ok (py_in "gpu" f || py_in "amdgpu" f || py_in "gh" f)
  end.

(** The snapshot the script works on: the node table, the running jobs of
    every host ([h2jj], built from the job table) and the user table. *)
Record snapshot := {
  nodes : gmap string node;
  h2jj : gmap string (list job);
  uid2user : gmap Z string;
}.

(** The local variables of [summarize_hl]; [v_gres] and [v_gres_used] are
    the two loop variables, unbound at first. *)
Record tally := {
  t_cpus : Z;
  t_cpus_allocated : Z;
  t_gpus : Z;
  t_gpus_allocated : Z;
  t_cb2jc : gmap string Z;
  v_gres : option string;
  v_gres_used : option string;
}.

Definition tally0 : tally :=
  {| t_cpus := 0; t_cpus_allocated := 0; t_gpus := 0; t_gpus_allocated := 0;
     t_cb2jc := ∅; v_gres := None; v_gres_used := None |}.

Definition get_partition (j : job) : io string := mret (partition j).

Definition get_user (snap : snapshot) (j : job) : io string :=
  match uid2user snap !! user_id j with
  | Some u => mret u
  | None =>
      _ ← print (Stderr (UnknownUser j));
      mret ("user_" +:+ NilZero.string_of_int (Z.to_int (user_id j)))
  end.

(** The job counts of host [h], when a breakdown is asked for. *)
Definition count_jobs (snap : snapshot) (cb : option count_by) (h : string)
    (cb2jc : gmap string Z) : io (gmap string Z) :=
  match cb with
  | None => mret cb2jc
  | Some c =>
      let get_func := match c with ByPartition => get_partition | ByUser => get_user snap end in
      io_for_each (λ d j, k ← get_func j; mret (<[k := default 0 (d !! k) + 1]> d))
                  (dd_get [] (h2jj snap) h) cb2jc
  end.

(** [nodes[h]] *)
Definition node_of (snap : snapshot) (h : string) : result node :=
  match nodes snap !! h with
  | Some n => Ok n
  | None => Raise KeyError
  end.

Definition starts_gpu (g : string) : bool := Py.startswith g "gpu".

(** Body of the loop of [summarize_hl] for host [h]. *)
Definition summarize_host (snap : snapshot) (cb : option count_by) (t : tally) (h : string)
    : io tally :=
  cb2jc ← count_jobs snap cb h (t_cb2jc t);
  node ← lift (node_of snap h);
  let cpus := t_cpus t + cpus node in
  let cpus_allocated := t_cpus_allocated t + alloc_cpus node in
  sig ← lift (signals_gpu node);
  if sig : bool then
    let g := for_break starts_gpu (gres node) (v_gres t) in
    let gu := for_break starts_gpu (gres_used node) (v_gres_used t) in
    k ← lift (gpu_count g);
    let gpus := t_gpus t + k in
    gpus_allocated ←
      try_except
        (ka ← lift (gpu_count gu); mret (t_gpus_allocated t + ka))
        (λ e,
           u ← lift (match gu with Some u => Ok u | None => Raise UnboundLocalError end);
           _ ← print (Stderr (Skipping h u (gres node) (gres_used node) e));
           mret (t_gpus_allocated t));
    mret {| t_cpus := cpus; t_cpus_allocated := cpus_allocated; t_gpus := gpus;
            t_gpus_allocated := gpus_allocated; t_cb2jc := cb2jc;
            v_gres := g; v_gres_used := gu |}
  else
    mret {| t_cpus := cpus; t_cpus_allocated := cpus_allocated; t_gpus := t_gpus t;
            t_gpus_allocated := t_gpus_allocated t; t_cb2jc := cb2jc;
            v_gres := v_gres t; v_gres_used := v_gres_used t |}.

Definition summarize_hl (snap : snapshot) (hl : hostlist) (cb : option count_by) : io tally :=
  io_for_each (summarize_host snap cb) (get_list hl) tally0.

(** ** The report *)

(** The command line of a report; the listing mode ([--list]) is
    modelled apart. *)
Record args := {
  arg_gres : bool;
  arg_node_lists : bool;
  arg_summarize : option count_by;
  arg_verbose : bool;
  arg_features : list string;
}.

(** [sorted(d.items())]: by key. *)
Definition sorted_items {V} (d : gmap string V) : list (string * V) :=
  merge_sort (λ a b, String.le a.1 b.1) (map_to_list d).

(** The order of [sorted(..., reverse=True)] on [(count, key)] pairs. *)
Definition pair_ge (a b : Z * string) : Prop :=
  b.1 < a.1 ∨ (b.1 = a.1 ∧ String.le b.2 a.2).

#[global] Instance pair_ge_dec : RelDecision pair_ge.
Proof. intros a b. unfold pair_ge. apply _. Defined.

Definition job_summary_count_by (cb2jc : gmap string Z) : list (string * Z) :=
  (λ p, (p.2, p.1)) <$> merge_sort pair_ge ((λ p, (p.2, p.1)) <$> map_to_list cb2jc).

(** [gpu_info] is empty unless the GPU total is non-zero. *)
Definition gpu_info_of (gpus gpus_allocated : Z) : option (Z * Z) :=
  if decide (gpus = 0) then None else Some (gpus, gpus_allocated).

Definition mk_line (a : args) (lbl : string) (c : Z) (t : tally) (gi : option (Z * Z))
    (hl : hostlist) : line :=
  {| label := lbl; n_nodes := c; l_cpus := t_cpus t;
     l_cpus_allocated := t_cpus_allocated t; gpu_info := gi;
     job_summary := job_summary_count_by (t_cb2jc t);
     node_list := if arg_node_lists a then Some hl else None |}.

(** Body of the loop over the feature buckets of a state; [gi] is the
    [gpu_info] left by the state's own line. *)
Definition report_feature (a : args) (snap : snapshot) (num_nodes : Z) (gi : option (Z * Z))
    (_ : unit) (item : string * hostlist) : io unit :=
  let fhl := uniq item.2 in
  let c := count fhl in
  if decide (item.1 = "gpu") then mret ()
  else if negb (arg_verbose a) && bool_decide (num_nodes = c) then mret ()
  else
    t ← summarize_hl snap fhl (arg_summarize a);
    print (Stdout (FeatureLine (mk_line a item.1 c t gi fhl))).

(** Body of the loop over the GRES buckets of a state. *)
Definition report_gres (a : args) (snap : snapshot) (num_nodes : Z)
    (_ : unit) (item : string * hostlist) : io unit :=
  let ghl := uniq item.2 in
  let c := count ghl in
  if negb (arg_verbose a) && bool_decide (num_nodes = c) then mret ()
  else
    t ← summarize_hl snap ghl (arg_summarize a);
    let gi := gpu_info_of (t_gpus t) (t_gpus_allocated t) in
    print (Stdout (GresLine (mk_line a item.1 c t gi ghl))).

Record totals := {
  total_nodes : Z;
  total_cpus : Z;
  total_cpus_allocated : Z;
  total_gpus : Z;
  total_gpus_allocated : Z;
  prefix2c : gmap string Z;
  prefix2cpus : gmap string Z;
}.

Definition totals0 : totals :=
  {| total_nodes := 0; total_cpus := 0; total_cpus_allocated := 0; total_gpus := 0;
     total_gpus_allocated := 0; prefix2c := ∅; prefix2cpus := ∅ |}.

(** Body of the loop over the state buckets. *)
Definition report_state (a : args) (snap : snapshot) (b : buckets) (tot : totals)
    (item : string * hostlist) : io totals :=
  let s := item.1 in
  let hl := uniq item.2 in
  let num_nodes := count hl in
  t ← summarize_hl snap hl (arg_summarize a);
  let gi := gpu_info_of (t_gpus t) (t_gpus_allocated t) in
  _ ← print (Stdout (StateLine (mk_line a s num_nodes t gi hl)));
  _ ← io_for_each (report_feature a snap num_nodes gi)
        (sorted_items (dd_get ∅ (state2f02hl b) s)) ();
  _ ← io_for_each (report_gres a snap num_nodes)
        (sorted_items (dd_get ∅ (state2gres2hl b) s)) ();
  mret {| total_nodes := total_nodes tot + num_nodes;
          total_cpus := total_cpus tot + t_cpus t;
          total_cpus_allocated := total_cpus_allocated tot + t_cpus_allocated t;
          total_gpus := total_gpus tot + t_gpus t;
          total_gpus_allocated := total_gpus_allocated tot + t_gpus_allocated t;
          prefix2c := <[s := dd_get 0 (prefix2c tot) s + num_nodes]> (prefix2c tot);
          prefix2cpus := <[s := dd_get 0 (prefix2cpus tot) s + t_cpus t]> (prefix2cpus tot) |}.

Definition report (a : args) (snap : snapshot) (b : buckets) : io totals :=
  tot ← io_for_each (report_state a snap b) (sorted_items (state2hl b)) totals0;
  _ ← print (Stdout (TotalLine (total_nodes tot) (total_cpus tot) (total_cpus_allocated tot)
                       (gpu_info_of (total_gpus tot) (total_gpus_allocated tot))));
  _ ← (if decide (prefix2c tot = ∅) then mret ()
       else print (Stdout (PrefixLine
              ((λ pc, (pc.1, pc.2, dd_get 0 (prefix2cpus tot) pc.1)) <$>
               sorted_items (prefix2c tot)))));
  mret tot.

(** The script from the parsed command line on.  [None]: the expression
    is outside the modelled fragment and not known to be refused by
    [compile]; the model says nothing about such a run. *)
Definition main (a : args) (snap : snapshot) : option (io totals) :=
  let e := expression (arg_features a) in
  match compile (sanitize e) with
  | Some fexp =>
      Some (b ← lift (select (arg_gres a) fexp (nodes snap));
            report a snap b)
  | None =>
      if syntax_error (sanitize e)
      then Some (_ ← print (Stderr (SyntaxErrorIn e)); lift (Raise SystemExit))
      else None
  end.

(** ** Auxiliary notions used to state the properties *)

(** A raw state read as the characters of a plain state with the two
    markers added at any places between them. *)
Inductive piece :=
  | Ch (c : ascii)
  | PowerDown
  | Reboot.

Fixpoint render (ps : list piece) : string :=
  match ps with
  | [] => ""
  | Ch c :: r => String c (render r)
  | PowerDown :: r => String "+" (String "P" (String "O" (String "W" (String "E" (String "R" (render r))))))
  | Reboot :: r => String "@" (render r)
  end.

Fixpoint plain (ps : list piece) : string :=
  match ps with
  | [] => ""
  | Ch c :: r => String c (plain r)
  | _ :: r => plain r
  end.

Definition marker_free (s : string) : bool :=
  negb (Py.contains "+POWER" s) && negb (Py.contains "@" s).

(** The spelling of a character when the characters in [which] are
    written out: [sanitize] writes out all three, each step of
    [unescape] reads one of them back. *)
Definition spelled (which : list ascii) (c : ascii) : string :=
  if bool_decide (c ∈ which) then
    if decide (c = "-"%char) then "___minus___"
    else if decide (c = "+"%char) then "___plus___"
    else if decide (c = ":"%char) then "___colon___"
    else String c ""
  else String c "".

(** Token texts on which the spelling can be read back: no underscore,
    and neither of the words [minus] and [plus]. *)
Definition escapable (t : string) : bool :=
  negb (Py.contains "_" t) && negb (Py.contains "minus" t) && negb (Py.contains "plus" t).

(** The truth value of an expression when every name [x] stands for
    [v x]. *)
Fixpoint holds (e : expr) (v : string → bool) : bool :=
  match e with
  | EName x => v x
  | ETrue => true
  | EFalse => false
  | ENot e => negb (holds e v)
  | EAnd e1 e2 => holds e1 v && holds e2 v
  | EOr e1 e2 => holds e1 v || holds e2 v
  end.

(** The comma-separated fragments of a node's GRES descriptors. *)
Definition gres_fragments (n : node) : list string :=
  gl ← gres n; Py.split "," gl.

Definition has_colon (g : string) : bool := Py.contains ":" g.

(** ** Sample data

    The node records quoted in the script, and a snapshot made of them. *)

Definition workergpu046 : node :=
  {| name := "workergpu046"; features := Some (FeatStr "gpu,skylake,v100");
     gres := ["gpu:v100-16gb:2(S:0-1)"]; gres_used := ["gpu:v100-16gb:0(IDX:N/A)"];
     cpus := 40; alloc_cpus := 0; state := "IDLE" |}.

Definition workergpu055 : node :=
  {| name := "workergpu055";
     features := Some (FeatStr "gpu,skylake,v100,v100-32gb,nvlink,sxm2");
     gres := ["gpu:v100-32gb:4(S:0-1)"]; gres_used := ["gpu:v100-32gb:4(IDX:0-3)"];
     cpus := 40; alloc_cpus := 22; state := "MIXED@" |}.

Definition workergpu040 : node :=
  {| name := "workergpu040"; features := Some (FeatStr "gpu,cascadelake,v100,v100-32gb");
     gres := ["gpu:v100s-32gb:4"]; gres_used := ["gpu:v100s-32gb:0"];
     cpus := 48; alloc_cpus := 0; state := "DOWN+DRAIN+POWER" |}.

Definition worker5010 : node :=
  {| name := "worker5010"; features := Some (FeatStr "rome,ib");
     gres := []; gres_used := ["gpu:0"];
     cpus := 128; alloc_cpus := 48; state := "MIXED" |}.

Definition worker5073 : node :=
  {| name := "worker5073"; features := Some (FeatStr "rome,ib");
     gres := []; gres_used := ["gpu:0"];
     cpus := 128; alloc_cpus := 120; state := "MIXED" |}.

Definition sample_nodes : gmap string node :=
  list_to_map [("workergpu046", workergpu046); ("workergpu055", workergpu055);
               ("workergpu040", workergpu040); ("worker5010", worker5010);
               ("worker5073", worker5073)].

Definition sample : snapshot :=
  {| nodes := sample_nodes; h2jj := ∅; uid2user := ∅ |}.

(** The host list filed under [s] and [f] in a two-level table. *)
Definition bucket2 (d : gmap string (gmap string hostlist)) (s f : string) : hostlist :=
  dd_get inithl (dd_get ∅ d s) f.

(** The primary feature of a feature string, as the specification words
    it: the first comma-separated token, or the second one when the first
    is the location sentinel. *)
Definition primary_feature (fs : string) : option string :=
  match Py.split "," fs with
  | t0 :: rest => if decide (t0 = location_sentinel) then head rest else Some t0
  | [] => None
  end.

(** Further node records used in the examples: a GPU node whose in-use
    descriptor carries no type, one whose descriptors both carry none,
    and nodes whose features hold "gh" only inside the word "highmem". *)

Definition workergpu100 : node :=
  {| name := "workergpu100"; features := Some (FeatStr "gpu,icelake,a100");
     gres := ["gpu:a100:4(S:0-1)"]; gres_used := ["gpu:0"];
     cpus := 64; alloc_cpus := 16; state := "MIXED" |}.

Definition workergpu200 : node :=
  {| name := "workergpu200"; features := Some (FeatStr "gpu,skylake");
     gres := ["gpu:4"]; gres_used := ["gpu:0"];
     cpus := 40; alloc_cpus := 0; state := "IDLE" |}.

Definition worker7001 : node :=
  {| name := "worker7001"; features := Some (FeatStr "icelake,highmem");
     gres := ["gpu:a100:4"]; gres_used := ["gpu:a100:1"];
     cpus := 64; alloc_cpus := 8; state := "MIXED" |}.

Definition workerhm01 : node :=
  {| name := "workerhm01"; features := Some (FeatStr "icelake,highmem");
     gres := []; gres_used := ["gpu:0"];
     cpus := 64; alloc_cpus := 8; state := "IDLE" |}.

(** A node tagged as a GPU node whose GRES list is empty, as the lists of
    the sample nodes without GPUs are. *)
Definition workergpu300 : node :=
  {| name := "workergpu300"; features := Some (FeatStr "gpu,skylake,v100");
     gres := []; gres_used := ["gpu:0"];
     cpus := 40; alloc_cpus := 0; state := "IDLE" |}.

(** A snapshot without jobs holding the given nodes under their names. *)
Definition snapshot_of (ns : list node) : snapshot :=
  {| nodes := list_to_map ((λ n, (name n, n)) <$> ns); h2jj := ∅; uid2user := ∅ |}.

(** The command line without options and without expression. *)
Definition plain_args : args :=
  {| arg_gres := false; arg_node_lists := false; arg_summarize := None;
     arg_verbose := false; arg_features := [] |}.

(** The distinct host names pushed to a host list. *)
Definition members (hl : hostlist) : gset string := list_to_set hl.

(** Sum of [f] over a list of hosts. *)
Definition Zsum (f : string → Z) (l : list string) : Z :=
  foldr (λ h acc, f h + acc) 0 l.

(** CPU capacity and allocation of a host of the snapshot. *)
Definition cpus_of (snap : snapshot) (h : string) : Z :=
  default 0 (cpus <$> nodes snap !! h).

Definition alloc_cpus_of (snap : snapshot) (h : string) : Z :=
  default 0 (alloc_cpus <$> nodes snap !! h).

Definition is_stderr (ev : event) : Prop :=
  match ev with
  | Stderr _ => True
  | Stdout _ => False
  end.



(** ** Notions for the grand total *)

(** The node table is keyed by the node names. *)
Definition keyed_by_name (nodes : gmap string node) : Prop :=
  map_Forall (λ k n, name n = k) nodes.

(** The nodes that pass the test of the selection loop. *)
Definition qualified (gres_mode : bool) (fexp : expr) (n : node) : Prop :=
  qualifies gres_mode fexp n = Ok true.

#[global] Instance qualified_dec gres_mode fexp n : Decision (qualified gres_mode fexp n).
Proof. unfold qualified. solve_decision. Defined.

Definition selected (gres_mode : bool) (fexp : expr) (ns : list node) : list node :=
  filter (qualified gres_mode fexp) ns.

(** Sum of the deduplicated node counts of the given buckets. *)
Definition counted_items (items : list (string * hostlist)) : Z :=
  foldr (λ item acc, count (uniq item.2) + acc) 0 items.

Definition counted (d : gmap string hostlist) : Z :=
  counted_items (map_to_list d).

(** ** Further notions: names, listing mode, the job table *)

Fixpoint all_chars (p : ascii → bool) (s : string) : bool :=
  match s with
  | "" => true
  | String c s' => p c && all_chars p s'
  end.

#[global] Instance token_eq_dec : EqDecision token.
Proof. solve_decision. Defined.

(** A word that the tokenizer reads as one name. *)
Definition is_identifier (x : string) : bool :=
  all_chars is_ident_char x && bool_decide (word_token x = Some (TName x)).

(** The primary feature of a node: defined when the features field is a
    string with a usable token. *)
Definition node_primary (n : node) : option string :=
  match features n with
  | Some (FeatStr fs) => primary_feature fs
  | _ => None
  end.

(** A node record on which the selection loop cannot raise. *)
Definition well_formed (n : node) : Prop :=
  is_Some (node_primary n) ∧ Forall (λ g, has_colon g = true) (gres_fragments n).

(** Sum of the lengths of the host lists of a table. *)
Definition sized (d : gmap string hostlist) : nat :=
  sum_list_with (λ item, length item.2) (map_to_list d).

(** The nodes on which the body of the selection loop returns: the test
    can be evaluated and, when it holds, the node has a primary feature and
    its GRES tokens can be read. *)
Definition fileable (gres_mode : bool) (fexp : expr) (n : node) : Prop :=
  (∃ v, qualifies gres_mode fexp n = Ok v) ∧
  (qualified gres_mode fexp n →
   is_Some (node_primary n) ∧ ∃ gl, getInfoGres n = Ok gl).

(** Sum of the job counts of a breakdown. *)
Definition tallied (d : gmap string Z) : Z :=
  foldr (λ item acc, item.2 + acc) 0 (map_to_list d).

(** Number of job occurrences on the hosts of a list. *)
Definition job_occurrences (snap : snapshot) (hl : list string) : Z :=
  Zsum (λ h, Z.of_nat (length (dd_get [] (h2jj snap) h))) hl.

(** The sample snapshot with two running jobs on one node, one of them
    owned by a user that the user table does not know. *)
Definition busy : snapshot :=
  {| nodes := sample_nodes;
     h2jj := {[ "worker5010" := [ {| partition := "gen"; user_id := 1007 |};
                                   {| partition := "ccq"; user_id := 1008 |} ] ]};
     uid2user := {[ 1007 := "alice" ]} |}.

(** Two nodes in the same state, one with GPUs and one without, and the
    tables the selection loop builds from them when every node
    qualifies. *)
Definition mixed_pair : snapshot := snapshot_of [workergpu055; worker5010].

Definition mixed_buckets : buckets :=
  match select false ETrue (nodes mixed_pair) with
  | Ok b => b
  | Raise _ => no_buckets
  end.

(** ** The listing mode

    With [--list] the script prints the sorted feature tokens and the
    sorted GRES tokens of all nodes and exits; the two printed lists are
    the value of [list_known]. *)

Definition list_step (acc : gset string * gset string) (n : node)
    : result (gset string * gset string) :=
  let features := acc.1 ∪ list_to_set (getInfoFeatures n) in
  gl ← getInfoGres n;
  Ok (features, acc.2 ∪ list_to_set gl).

Definition list_known (nodes : gmap string node) : result (list string * list string) :=
  acc ← for_each list_step (values nodes) (∅, ∅);
  Ok (merge_sort String.le (elements acc.1), merge_sort String.le (elements acc.2)).

(** ** The jobs of every host

    A job of the job table, with the fields read when [h2jj] is built;
    [expand] stands for pyslurm's expansion of a host-list expression
    ([hostlist.create] followed by [get_list]). *)
Record job_entry := {
  job_state : string;
  job_nodes : string;
  job_fields : job;
}.

Definition add_job (j : job) (d : gmap string (list job)) (h : string)
    : gmap string (list job) :=
  <[h := dd_get [] d h ++ [j]]> d.

Definition build_h2jj (expand : string → list string) (jobs : list job_entry)
    : gmap string (list job) :=
  foldl (λ d j,
           if decide (job_state j = "RUNNING")
           then foldl (add_job (job_fields j)) d (expand (job_nodes j))
           else d)
        ∅ jobs.

(** * Properties *)

(** ** Strings *)

Lemma append_cons c s t : String c s +:+ t = String c (s +:+ t).
Proof. reflexivity. Qed.

Lemma append_empty t : "" +:+ t = t.
Proof. reflexivity. Qed.

Lemma prefix_empty s : String.prefix "" s = true.
Proof. by destruct s. Qed.

Lemma prefix_cons a p c s :
  String.prefix (String a p) (String c s) = bool_decide (a = c) && String.prefix p s.
Proof. simpl. destruct (ascii_dec a c); by case_bool_decide. Qed.

(** Replacing a one-character pattern acts on each character alone. *)
Lemma replace_char a new s :
  Py.replace (String a "") new s =
  Py.flat_map_chars (λ c, if decide (c = a) then new else String c "") s.
Proof.
  unfold Py.replace. induction s as [|c s IH]; [done|].
  cbn [Py.replace_go Py.flat_map_chars String.length Nat.sub].
  rewrite prefix_cons, prefix_empty, andb_true_r, IH.
  case_bool_decide; case_decide; by simplify_eq.
Qed.

Lemma contains_cons sub c s :
  Py.contains sub (String c s) = String.prefix sub (String c s) || Py.contains sub s.
Proof. reflexivity. Qed.

(** ** State normalisation *)

Lemma norm_state_no_reboot raw : Py.contains "@" (norm_state raw) = false.
Proof.
  unfold norm_state. rewrite replace_char.
  induction (Py.replace "+POWER" "" raw) as [|c s IH]; [done|].
  cbn [Py.flat_map_chars]. case_decide as Hc.
  - by rewrite append_empty.
  - rewrite append_cons, append_empty, contains_cons, prefix_cons, IH.
    case_bool_decide; by simplify_eq.
Qed.

(** A word without marker characters that starts the rendered state
    starts the plain state as well: markers cannot contribute to it. *)
Lemma prefix_render_plain w ps :
  (∀ c, c ∈ list_ascii_of_string w → c ≠ "+"%char ∧ c ≠ "@"%char) →
  String.prefix w (render ps) = true → String.prefix w (plain ps) = true.
Proof.
  revert ps. induction w as [|a w IH]; intros ps Hw Hp; [apply prefix_empty|].
  assert (a ≠ "+"%char ∧ a ≠ "@"%char) as [Ha1 Ha2] by (apply Hw; left).
  destruct ps as [|[c| |] r]; cbn [render plain] in *; try done.
  - rewrite prefix_cons in *. apply andb_true_iff in Hp as [Hac Hp].
    rewrite Hac, (IH r); [done| |done].
    intros c' Hc'. apply Hw. by right.
  - rewrite prefix_cons in Hp. case_bool_decide; by simplify_eq.
  - rewrite prefix_cons in Hp. case_bool_decide; by simplify_eq.
Qed.

Lemma strip_power ps :
  Py.contains "+POWER" (plain ps) = false →
  ∃ ps', Py.replace "+POWER" "" (render ps) = render ps' ∧
         plain ps' = plain ps ∧ PowerDown ∉ ps'.
Proof.
  unfold Py.replace. induction ps as [|[c| |] r IH]; intros Hfree.
  - exists []. split_and!; [done..|]. by intros ?%elem_of_nil.
  - cbn [plain] in Hfree. rewrite contains_cons in Hfree.
    apply orb_false_elim in Hfree as [Hhere Hrest].
    destruct (IH Hrest) as (ps' & Hr & Hp & Hn).
    exists (Ch c :: ps'). cbn [render plain Py.replace_go].
    assert (String.prefix "+POWER" (String c (render r)) = false) as ->.
    { rewrite prefix_cons in *. case_bool_decide; [|done]. simpl in *.
      destruct (String.prefix "POWER" (render r)) eqn:E; [|done].
      rewrite (prefix_render_plain "POWER") in Hhere; [done| |done].
      intros c' Hc'. cbn in Hc'.
      repeat (apply elem_of_cons in Hc' as [->|Hc']; [done|]).
      by apply elem_of_nil in Hc'. }
    rewrite Hr, Hp. split_and!; [done..|].
    intros [?|?]%elem_of_cons; [done|by apply Hn].
  - destruct (IH Hfree) as (ps' & Hr & Hp & Hn).
    exists ps'. cbn [render plain]. split_and!; [|done..].
    cbn. rewrite prefix_empty. by rewrite append_empty.
  - destruct (IH Hfree) as (ps' & Hr & Hp & Hn).
    exists (Reboot :: ps'). cbn [render plain Py.replace_go].
    rewrite prefix_cons. cbn. rewrite Hr. split_and!; [done..|].
    intros [?|?]%elem_of_cons; [done|by apply Hn].
Qed.

Lemma strip_reboot ps :
  PowerDown ∉ ps → Py.contains "@" (plain ps) = false →
  Py.replace "@" "" (render ps) = plain ps.
Proof.
  rewrite replace_char. induction ps as [|[c| |] r IH]; intros Hn Hfree.
  - done.
  - cbn [plain] in Hfree. rewrite contains_cons, prefix_cons in Hfree.
    apply orb_false_elim in Hfree as [Hhere Hrest].
    cbn [render plain Py.flat_map_chars]. rewrite IH; [|set_solver|done].
    destruct (decide (c = "@"%char)) as [->|Hc]; [|reflexivity].
    by rewrite prefix_empty in Hhere.
  - exfalso. apply Hn. left.
  - cbn [render plain Py.flat_map_chars]. rewrite IH; [done|set_solver|done].
Qed.

(** C4 (as amended): the normalised state never holds the reboot marker;
    and when the raw state is a plain state, itself free of both markers,
    with power-down and reboot markers added between its characters, the
    normalised state is that plain state, so it holds neither marker. *)
Theorem norm_state_strips raw :
  Py.contains "@" (norm_state raw) = false ∧
  ∀ ps, raw = render ps → marker_free (plain ps) = true →
        norm_state raw = plain ps ∧ Py.contains "+POWER" (norm_state raw) = false.
Proof.
  split; [apply norm_state_no_reboot|].
  intros ps -> [Hp Hr]%andb_true_iff.
  apply negb_true_iff in Hp. apply negb_true_iff in Hr.
  destruct (strip_power ps Hp) as (ps' & Hrep & Hpl & Hn).
  assert (norm_state (render ps) = plain ps) as ->; [|done].
  unfold norm_state. rewrite Hrep, strip_reboot; [done..|by rewrite Hpl].
Qed.

Lemma norm_state_strips_witness :
  norm_state "DOWN+POWER+DRAIN@" = "DOWN+DRAIN" ∧
  Py.contains "+POWER" (norm_state "DOWN+POWER+DRAIN@") = false.
Proof.
  apply (proj2 (norm_state_strips "DOWN+POWER+DRAIN@")
    [Ch "D"; Ch "O"; Ch "W"; Ch "N"; PowerDown; Ch "+"; Ch "D"; Ch "R"; Ch "A";
     Ch "I"; Ch "N"; Reboot]); reflexivity.
Defined.

(** C4 (as stated) fails: removing the reboot marker can join the two
    halves of a power-down marker. *)
Lemma norm_state_keeps_power_marker :
  Py.contains "+POWER" (norm_state "+PO@WER") = true.
Proof. reflexivity. Qed.

(** ** Escaping of token names *)

Lemma flat_map_chars_app f a b :
  Py.flat_map_chars f (a +:+ b) = Py.flat_map_chars f a +:+ Py.flat_map_chars f b.
Proof.
  induction a as [|c a IH]; [done|].
  rewrite append_cons. cbn [Py.flat_map_chars]. rewrite IH.
  induction (f c) as [|d s IHs]; [done|]. rewrite !append_cons. by rewrite IHs.
Qed.

Lemma sanitize_spelled t :
  sanitize t = Py.flat_map_chars (spelled ["-"; "+"; ":"]%char) t.
Proof.
  unfold sanitize. rewrite !replace_char.
  induction t as [|c t IH]; [done|].
  cbn [Py.flat_map_chars]. rewrite !flat_map_chars_app, IH. f_equal.
  destruct (decide (c = "-"%char)) as [->|H1]; [done|].
  destruct (decide (c = "+"%char)) as [->|H2]; [done|].
  destruct (decide (c = ":"%char)) as [->|H3]; [done|].
  assert (spelled ["-"; "+"; ":"]%char c = String c "") as ->.
  { unfold spelled. rewrite !decide_False by done. by case_bool_decide. }
  cbn [Py.flat_map_chars]. rewrite decide_False by done.
  rewrite append_cons, !append_empty.
  cbn [Py.flat_map_chars]. by rewrite decide_False by done.
Qed.

Lemma scan_char old new c rest :
  String.prefix old (String c rest) = false →
  Py.replace_go old new 0 (String c rest) = String c (Py.replace_go old new 0 rest).
Proof. intros H. cbn [Py.replace_go]. by rewrite H. Qed.

Lemma contains_cons_false sub c s :
  Py.contains sub (String c s) = false →
  String.prefix sub (String c s) = false ∧ Py.contains sub s = false.
Proof. rewrite contains_cons. apply orb_false_elim. Qed.

Lemma no_underscore_head c s : Py.contains "_" (String c s) = false → c ≠ "_"%char.
Proof.
  intros [H _]%contains_cons_false Hc. subst c.
  by rewrite prefix_cons, prefix_empty in H.
Qed.

Lemma prefix_app_true w1 w2 s :
  String.prefix (w1 +:+ w2) s = true → String.prefix w1 s = true.
Proof.
  revert s. induction w1 as [|a w1 IH]; intros s H; [apply prefix_empty|].
  destruct s as [|c s]; [done|]. rewrite append_cons, prefix_cons in H.
  rewrite prefix_cons. apply andb_true_iff in H as [-> H]. by rewrite (IH s).
Qed.

(** The spelling of a character is the character itself or starts with
    three underscores. *)
Lemma spelled_cases which c :
  spelled which c = String c "" ∨
  ∃ w, spelled which c = String "_" (String "_" (String "_" w)).
Proof.
  unfold spelled. case_bool_decide; [|by left].
  repeat case_decide; eauto.
Qed.

Lemma spelled_head which t :
  Py.contains "_" t = false →
  Py.flat_map_chars (spelled which) t = "" ∨
  (∃ c X, Py.flat_map_chars (spelled which) t = String c X ∧ c ≠ "_"%char) ∨
  (∃ X, Py.flat_map_chars (spelled which) t = String "_" (String "_" (String "_" X))).
Proof.
  destruct t as [|c t]; [by left|]. intros Hc%no_underscore_head. right.
  cbn [Py.flat_map_chars].
  destruct (spelled_cases which c) as [->|[w ->]]; [left|right]; eauto.
Qed.

(** A word without underscores that starts the spelled text starts the
    text itself. *)
Lemma prefix_spelled w which t :
  Py.contains "_" w = false →
  String.prefix w (Py.flat_map_chars (spelled which) t) = true →
  String.prefix w t = true.
Proof.
  revert t. induction w as [|a w IH]; intros t Hw Hp; [apply prefix_empty|].
  destruct t as [|c t]; [done|]. cbn [Py.flat_map_chars] in Hp.
  pose proof (no_underscore_head _ _ Hw) as Ha.
  apply contains_cons_false in Hw as [_ Hw].
  destruct (spelled_cases which c) as [Hs|[v Hs]]; rewrite Hs in Hp.
  - rewrite append_cons, append_empty, prefix_cons in Hp.
    apply andb_true_iff in Hp as [Hac Hp]. rewrite prefix_cons, Hac. by apply IH.
  - rewrite !append_cons, prefix_cons in Hp.
    apply andb_true_iff in Hp as [Hac%bool_decide_eq_true _]. done.
Qed.

(** What can follow the underscores that end a spelling. *)
Lemma spelled_boundary which w t :
  Py.contains "_" t = false → Py.contains "_" w = false → w ≠ "" →
  String.prefix w t = false →
  let X := Py.flat_map_chars (spelled which) t in
  String.prefix (w +:+ "___") X = false ∧
  String.prefix (String "_" (w +:+ "___")) X = false ∧
  String.prefix (String "_" (String "_" (w +:+ "___"))) X = false.
Proof.
  intros Ht Hw Hne Hp X. split_and!.
  - destruct (String.prefix (w +:+ "___") X) eqn:E; [|done].
    apply prefix_app_true, prefix_spelled in E; [congruence|done].
  - destruct w as [|a w]; [done|]. pose proof (no_underscore_head _ _ Hw) as Ha.
    destruct (spelled_head which t Ht) as [E|[(c & X' & E & Hc)|[X' E]]];
      fold X in E; rewrite E; [done|..].
    + rewrite prefix_cons, (bool_decide_eq_false_2 ("_"%char = c)); [done|congruence].
    + rewrite append_cons, !prefix_cons, (bool_decide_eq_false_2 (a = "_"%char)) by done.
      by rewrite ?andb_false_r.
  - destruct w as [|a w]; [done|]. pose proof (no_underscore_head _ _ Hw) as Ha.
    destruct (spelled_head which t Ht) as [E|[(c & X' & E & Hc)|[X' E]]];
      fold X in E; rewrite E; [done|..].
    + rewrite prefix_cons, (bool_decide_eq_false_2 ("_"%char = c)); [done|congruence].
    + rewrite append_cons, !prefix_cons, (bool_decide_eq_false_2 (a = "_"%char)) by done.
      by rewrite ?andb_false_r.
Qed.

Ltac scan_through b1 b2 b3 :=
  repeat (rewrite scan_char by first [reflexivity | exact b1 | exact b2 | exact b3]).

Lemma scan_plain old c rest :
  c ≠ "_"%char →
  String.prefix (String "_" old) (String c rest) = false.
Proof. intros Hc. rewrite prefix_cons, bool_decide_eq_false_2; [done|congruence]. Qed.

(** First step of [unescape]: the spelled minus signs are read back. *)
Lemma read_minus t :
  Py.contains "_" t = false → Py.contains "minus" t = false →
  Py.replace "___minus___" "-" (Py.flat_map_chars (spelled ["-"; "+"; ":"]%char) t) =
  Py.flat_map_chars (spelled ["+"; ":"]%char) t.
Proof.
  unfold Py.replace. induction t as [|c t IH]; [done|].
  intros Hu Hm. pose proof (no_underscore_head _ _ Hu) as Hc.
  apply contains_cons_false in Hu as [_ Hu]. apply contains_cons_false in Hm as [_ Hm].
  specialize (IH Hu Hm). cbn [Py.flat_map_chars].
  assert (String.prefix "minus" t = false) as Hp.
  { destruct t; [done|]. by apply contains_cons_false in Hm as [? _]. }
  destruct (spelled_boundary ["-"; "+"; ":"]%char "minus" t Hu eq_refl ltac:(done) Hp)
    as (b3 & b2 & b1).
  revert IH b1 b2 b3.
  generalize (Py.flat_map_chars (spelled ["-"; "+"; ":"]%char) t).
  generalize (Py.flat_map_chars (spelled ["+"; ":"]%char) t).
  intros Y X IH b1 b2 b3.
  destruct (decide (c = "-"%char)) as [->|H1].
  { change (spelled _ "-"%char) with "___minus___" at 1.
    change (spelled _ "-"%char) with "-".
    rewrite !append_cons, !append_empty. cbn. by rewrite prefix_empty, IH. }
  destruct (decide (c = "+"%char)) as [->|H2].
  { change (spelled _ "+"%char) with "___plus___".
    rewrite !append_cons, !append_empty. scan_through b1 b2 b3. by rewrite IH. }
  destruct (decide (c = ":"%char)) as [->|H3].
  { change (spelled _ ":"%char) with "___colon___".
    rewrite !append_cons, !append_empty. scan_through b1 b2 b3. by rewrite IH. }
  assert (∀ which, spelled which c = String c "") as Hs.
  { intros which. unfold spelled. rewrite !decide_False by done. by case_bool_decide. }
  rewrite !Hs, !append_cons, !append_empty, scan_char, IH; [done|by apply scan_plain].
Qed.

(** Second step: the spelled plus signs. *)
Lemma read_plus t :
  Py.contains "_" t = false → Py.contains "plus" t = false →
  Py.replace "___plus___" "+" (Py.flat_map_chars (spelled ["+"; ":"]%char) t) =
  Py.flat_map_chars (spelled [":"]%char) t.
Proof.
  unfold Py.replace. induction t as [|c t IH]; [done|].
  intros Hu Hm. pose proof (no_underscore_head _ _ Hu) as Hc.
  apply contains_cons_false in Hu as [_ Hu]. apply contains_cons_false in Hm as [_ Hm].
  specialize (IH Hu Hm). cbn [Py.flat_map_chars].
  assert (String.prefix "plus" t = false) as Hp.
  { destruct t; [done|]. by apply contains_cons_false in Hm as [? _]. }
  destruct (spelled_boundary ["+"; ":"]%char "plus" t Hu eq_refl ltac:(done) Hp)
    as (b3 & b2 & b1).
  revert IH b1 b2 b3.
  generalize (Py.flat_map_chars (spelled ["+"; ":"]%char) t).
  generalize (Py.flat_map_chars (spelled [":"]%char) t).
  intros Y X IH b1 b2 b3.
  destruct (decide (c = "+"%char)) as [->|H2].
  { change (spelled _ "+"%char) with "___plus___" at 1.
    change (spelled _ "+"%char) with "+".
    rewrite !append_cons, !append_empty. cbn. by rewrite prefix_empty, IH. }
  destruct (decide (c = ":"%char)) as [->|H3].
  { change (spelled _ ":"%char) with "___colon___".
    rewrite !append_cons, !append_empty. scan_through b1 b2 b3. by rewrite IH. }
  assert (∀ which, "-"%char ∉ which → spelled which c = String c "") as Hs.
  { intros which Hw. unfold spelled. case_bool_decide; [|done].
    repeat case_decide; by simplify_eq. }
  rewrite !Hs, !append_cons, !append_empty, scan_char, IH; [done|by apply scan_plain|..];
    by apply (bool_decide_unpack _).
Qed.

(** Third step: the spelled colons. *)
Lemma read_colon t :
  Py.contains "_" t = false →
  Py.replace "___colon___" ":" (Py.flat_map_chars (spelled [":"]%char) t) = t.
Proof.
  unfold Py.replace. induction t as [|c t IH]; [done|].
  intros Hu. pose proof (no_underscore_head _ _ Hu) as Hc.
  apply contains_cons_false in Hu as [_ Hu].
  specialize (IH Hu). cbn [Py.flat_map_chars].
  revert IH. generalize (Py.flat_map_chars (spelled [":"]%char) t). intros X IH.
  destruct (decide (c = ":"%char)) as [->|H3].
  { change (spelled _ ":"%char) with "___colon___".
    rewrite !append_cons, !append_empty. cbn. by rewrite prefix_empty, IH. }
  assert (spelled [":"]%char c = String c "") as ->.
  { unfold spelled. case_bool_decide as Hin; [|done].
    apply list_elem_of_singleton in Hin. done. }
  rewrite !append_cons, !append_empty, scan_char, IH; [done|by apply scan_plain].
Qed.

Lemma escapable_parts t :
  escapable t = true →
  Py.contains "_" t = false ∧ Py.contains "minus" t = false ∧ Py.contains "plus" t = false.
Proof.
  unfold escapable. intros [[H1 H2]%andb_true_iff H3]%andb_true_iff.
  by rewrite <-!negb_true_iff.
Qed.

(** Spelling out and reading back recovers an escapable token text. *)
Lemma unescape_sanitize t : escapable t = true → unescape (sanitize t) = t.
Proof.
  intros (Hu & Hm & Hp)%escapable_parts. unfold unescape.
  by rewrite sanitize_spelled, read_minus, read_plus, read_colon.
Qed.

(** ** Bindings and evaluation *)

Lemma elem_of_co_names x e : x ∈ co_names e ↔ x ∈ names e.
Proof.
  unfold co_names.
  assert (∀ l acc, x ∈ foldl (λ acc x, if bool_decide (x ∈ acc) then acc else acc ++ [x]) acc l
                   ↔ x ∈ acc ∨ x ∈ l) as H.
  { induction l as [|y l IH]; intros acc; cbn [foldl].
    - rewrite elem_of_nil. tauto.
    - rewrite IH, elem_of_cons. case_bool_decide as Hy.
      + split; [tauto|]. intros [?|[->|?]]; tauto.
      + rewrite elem_of_app, list_elem_of_singleton. tauto. }
  rewrite H, elem_of_nil. tauto.
Qed.

Lemma lookup_bindings (g : string → bool) (l : list string) x :
  (list_to_map ((λ f, (f, g f)) <$> l) : gmap string bool) !! x =
  if decide (x ∈ l) then Some (g x) else None.
Proof.
  induction l as [|y l IH]; [done|].
  cbn [fmap list_fmap list_to_map foldr]. 
  destruct (decide (y = x)) as [->|Hne].
  - rewrite lookup_insert_eq, decide_True; [done|left].
  - rewrite lookup_insert_ne, IH by done.
    apply decide_ext. rewrite elem_of_cons.
    split; [by right|]. intros [?|?]; [congruence|done].
Qed.

Lemma node_locals_lookup fexp (toks : list string) f :
  f ∈ names fexp →
  node_locals fexp (list_to_set toks) !! f = Some (bool_decide (unescape f ∈ toks)).
Proof.
  intros Hf. unfold node_locals. rewrite lookup_bindings, decide_True.
  - f_equal. apply bool_decide_ext. by rewrite elem_of_list_to_set.
  - by apply elem_of_co_names.
Qed.

(** With every name bound, evaluation returns the truth value and raises
    nothing. *)
Lemma eval_holds e (locals : gmap string bool) v :
  (∀ x, x ∈ names e → locals !! x = Some (v x)) →
  eval e locals = Ok (holds e v).
Proof.
  induction e as [x| | |e IH|e1 IH1 e2 IH2|e1 IH1 e2 IH2]; intros Hb; cbn [eval holds].
  - rewrite Hb; [done|]. cbn. left.
  - done.
  - done.
  - rewrite IH; done.
  - rewrite IH1 by (intros; apply Hb; cbn; set_solver).
    cbn. destruct (holds e1 v); [|done].
    apply IH2. intros; apply Hb; cbn; set_solver.
  - rewrite IH1 by (intros; apply Hb; cbn; set_solver).
    cbn. destruct (holds e1 v); [done|].
    apply IH2. intros; apply Hb; cbn; set_solver.
Qed.

Lemma qualifies_holds gres_mode fexp n toks :
  getInfo gres_mode n = Ok toks →
  qualifies gres_mode fexp n =
  Ok (holds fexp (λ x, bool_decide (unescape x ∈ toks))).
Proof.
  intros Hg. unfold qualifies. rewrite Hg. cbn.
  apply eval_holds. intros x Hx. by apply node_locals_lookup.
Qed.

(** C2 (as amended): every name of the expression is bound to true iff
    its unescaped spelling is a token of the node, and the node qualifies
    iff the expression is true under these bindings; escaping and
    unescaping give back a token text that holds no underscore and
    neither of the words "minus" and "plus". *)
Theorem bindings_and_selection gres_mode fexp n toks :
  getInfo gres_mode n = Ok toks →
  let ns : gset string := list_to_set toks in
  (∀ f, f ∈ co_names fexp →
        node_locals fexp ns !! f = Some (bool_decide (unescape f ∈ toks))) ∧
  (∀ t, escapable t = true → unescape (sanitize t) = t) ∧
  qualifies gres_mode fexp n = Ok (holds fexp (λ x, bool_decide (unescape x ∈ toks))).
Proof.
  intros Hg ns. split_and!.
  - intros f Hf%elem_of_co_names. by apply node_locals_lookup.
  - apply unescape_sanitize.
  - by apply qualifies_holds.
Qed.

Lemma bindings_and_selection_witness :
  let fexp := EAnd (EName "gpu") (ENot (EName "v100___minus___32gb")) in
  compile (sanitize "gpu and not v100-32gb") = Some fexp ∧
  qualifies false fexp workergpu055 = Ok false ∧
  qualifies false fexp workergpu046 = Ok true.
Proof.
  intros fexp. split_and!; [reflexivity|..].
  - apply (bindings_and_selection false fexp workergpu055
             ["gpu"; "skylake"; "v100"; "v100-32gb"; "nvlink"; "sxm2"] eq_refl).
  - apply (bindings_and_selection false fexp workergpu046
             ["gpu"; "skylake"; "v100"] eq_refl).
Defined.

(** C2 (as stated) fails: a token text that holds the spelling of a minus
    sign is not recovered, and the node that carries it is not selected by
    the expression that names it. *)
Lemma spelling_not_recovered :
  let n := {| name := "n1"; features := Some (FeatStr "x___minus___y");
              gres := []; gres_used := []; cpus := 1; alloc_cpus := 0;
              state := "IDLE" |} in
  unescape (sanitize "x___minus___y") ≠ "x___minus___y" ∧
  getInfo false n = Ok ["x___minus___y"] ∧
  compile (sanitize "x___minus___y") = Some (EName "x___minus___y") ∧
  qualifies false (EName "x___minus___y") n = Ok false.
Proof. intros n. split_and!; [by vm_compute|reflexivity..]. Qed.

(** The same with a token text free of underscores. *)
Example plus_minus_plus_not_recovered : unescape (sanitize "+minus+") = "___plus-plus___".
Proof. reflexivity. Qed.

(** ** Extraction *)

Lemma splitn_no_sep sep k s :
  Py.contains (String sep "") s = false → Py.splitn sep k s = [s].
Proof.
  induction s as [|c s IH]; [done|].
  intros [Hh Ht]%contains_cons_false. rewrite prefix_cons, prefix_empty, andb_true_r in Hh.
  apply bool_decide_eq_false in Hh. cbn [Py.splitn].
  rewrite decide_False by congruence. by rewrite IH.
Qed.

Lemma splitn_nonempty sep k s : ∃ w ws, Py.splitn sep k s = w :: ws.
Proof.
  revert k. induction s as [|c s IH]; intros k; [by eexists _, _|].
  cbn [Py.splitn]. case_decide.
  - destruct k; by eexists _, _.
  - destruct (IH k) as (w & ws & ->). by eexists _, _.
Qed.

Lemma splitn_sep sep k s :
  Py.contains (String sep "") s = true →
  ∃ a b rest, Py.splitn sep (S k) s = a :: b :: rest.
Proof.
  induction s as [|c s IH]; [done|]. rewrite contains_cons.
  rewrite prefix_cons, prefix_empty, andb_true_r. cbn [Py.splitn].
  destruct (decide (c = sep)) as [->|Hne].
  - intros _. destruct (splitn_nonempty sep k s) as (w & ws & ->). by eexists _, _, _.
  - rewrite bool_decide_eq_false_2 by congruence. cbn. intros H.
    destruct (IH H) as (a & b & rest & ->). by eexists _, _, _.
Qed.

(** The second colon-delimited field exists iff the fragment has a
    colon. *)
Lemma second_field g :
  (has_colon g = true → ∃ ty, index (Py.splitn ":" 2 g) 1 = Ok ty) ∧
  (has_colon g = false → index (Py.splitn ":" 2 g) 1 = Raise IndexError).
Proof.
  unfold has_colon. split; intros H.
  - destruct (splitn_sep ":" 1 g H) as (a & b & rest & ->). by exists b.
  - by rewrite splitn_no_sep.
Qed.

Lemma mapM_result {A B} (f : A → result B) e (l : list A) :
  (∀ x, x ∈ l → (∃ y, f x = Ok y) ∨ f x = Raise e) →
  (Forall (λ x, ∃ y, f x = Ok y) l → ∃ ys, mapM f l = Ok ys ∧ length ys = length l) ∧
  (¬ Forall (λ x, ∃ y, f x = Ok y) l → mapM f l = Raise e).
Proof.
  induction l as [|x l IH]; intros Hf.
  - split; [by exists []|]. intros []. constructor.
  - destruct IH as [IH1 IH2]; [intros; apply Hf; by right|]. split.
    + intros [[y Hy] Hl]%Forall_cons. destruct (IH1 Hl) as (ys & Hys & Hlen).
      exists (y :: ys). cbn. rewrite Hy. cbn. rewrite Hys. cbn. by rewrite Hlen.
    + intros Hn. cbn. destruct (Hf x) as [[y Hy]|Hx]; [by left| |by rewrite Hx].
      rewrite Hy. cbn. rewrite IH2; [done|].
      intros Hl. apply Hn. constructor; eauto.
Qed.

Lemma getInfoGres_fragments n :
  getInfoGres n = mapM (λ g, index (Py.splitn ":" 2 g) 1) (gres_fragments n).
Proof. unfold getInfoGres, gres_fragments. by destruct (gres n). Qed.

(** C9 (as amended): the feature extractor raises nothing: an absent
    field gives no token and a single string is read as a list of one
    string.  The GRES extractor gives no token for an empty descriptor
    list, and returns one token per fragment when every comma-separated
    fragment of the descriptors holds a colon; a fragment without a colon
    makes it raise IndexError. *)
Theorem extractors_total_on_wellformed n :
  (features n = None → getInfoFeatures n = []) ∧
  (∀ s, features n = Some (FeatStr s) → getInfoFeatures n = Py.split "," s) ∧
  (∀ l, features n = Some (FeatList l) → getInfoFeatures n = l ≫= Py.split ",") ∧
  (gres n = [] → getInfoGres n = Ok []) ∧
  (Forall (λ g, has_colon g = true) (gres_fragments n) →
     ∃ toks, getInfoGres n = Ok toks ∧ length toks = length (gres_fragments n)) ∧
  (¬ Forall (λ g, has_colon g = true) (gres_fragments n) →
     getInfoGres n = Raise IndexError).
Proof.
  split_and!.
  - unfold getInfoFeatures. by intros ->.
  - unfold getInfoFeatures. intros s ->. cbn. by rewrite app_nil_r.
  - unfold getInfoFeatures. by intros l ->.
  - unfold getInfoGres. by intros ->.
  - intros Hall. rewrite getInfoGres_fragments.
    apply (mapM_result _ IndexError).
    + intros g _. destruct (has_colon g) eqn:E; [left|right]; by apply second_field.
    + eapply Forall_impl; [done|]. intros g Hg. by apply second_field.
  - intros Hn. rewrite getInfoGres_fragments.
    apply (mapM_result _ IndexError).
    + intros g _. destruct (has_colon g) eqn:E; [left|right]; by apply second_field.
    + intros Hall. apply Hn. eapply Forall_impl; [done|]. intros g [ty Hg]. cbv beta.
      destruct (has_colon g) eqn:E; [done|].
      apply second_field in E. congruence.
Qed.

Lemma extractors_total_on_wellformed_witness :
  getInfoFeatures workergpu046 = ["gpu"; "skylake"; "v100"] ∧
  ∃ toks, getInfoGres workergpu046 = Ok toks ∧ length toks = 1%nat.
Proof.
  destruct (extractors_total_on_wellformed workergpu046) as (_ & Hs & _ & _ & Hg & _).
  split.
  - apply (Hs "gpu,skylake,v100" eq_refl).
  - apply Hg. repeat constructor.
Defined.

(** C9 (as stated) fails: a GRES descriptor without a colon makes the
    extractor raise. *)
Lemma getInfoGres_raises :
  getInfoGres {| name := "n1"; features := Some (FeatStr "gpu"); gres := ["gpu"];
                 gres_used := []; cpus := 1; alloc_cpus := 0; state := "IDLE" |}
  = Raise IndexError.
Proof. reflexivity. Qed.

(** ** Bucketing *)

#[local] Arguments norm_state : simpl never.
#[local] Arguments push1 : simpl never.
#[local] Arguments push2 : simpl never.
#[local] Arguments getInfoGres : simpl never.

Lemma dd_get_push1 d s h s' :
  dd_get inithl (push1 d s h) s' =
  if decide (s' = s) then dd_get inithl d s ++ [h] else dd_get inithl d s'.
Proof.
  unfold dd_get, push1, push. case_decide as E.
  - subst. by rewrite lookup_insert_eq.
  - by rewrite lookup_insert_ne.
Qed.

Lemma bucket2_push2 d s f h s' f' :
  bucket2 (push2 d s f h) s' f' =
  if decide ((s', f') = (s, f)) then bucket2 d s f ++ [h] else bucket2 d s' f'.
Proof.
  unfold bucket2, push2. destruct (decide (s' = s)) as [->|Hs].
  - assert (∀ m, dd_get ∅ (<[s:=m]> d) s = m) as ->.
    { intros m. unfold dd_get. by rewrite lookup_insert_eq. }
    rewrite dd_get_push1. apply decide_ext. split; [by intros ->|congruence].
  - assert (∀ m, dd_get ∅ (<[s:=m]> d) s' = dd_get ∅ d s') as ->.
    { intros m. unfold dd_get. by rewrite lookup_insert_ne. }
    rewrite decide_False; [done|congruence].
Qed.

Lemma split_nonempty sep s : ∃ t0 rest, Py.split sep s = t0 :: rest.
Proof. apply splitn_nonempty. Qed.

(** C5: a qualifying node that the loop files is filed, in the table of
    primary features, under its normalised state and the first
    comma-separated token of its feature string, or the second token when
    the first is the location sentinel; no other bucket of that table
    changes. *)
Theorem primary_feature_bucket gres_mode fexp b n b' :
  qualifies gres_mode fexp n = Ok true →
  visit gres_mode fexp b n = Ok b' →
  ∃ fs key,
    features n = Some (FeatStr fs) ∧ primary_feature fs = Some key ∧
    bucket2 (state2f02hl b') (norm_state (state n)) key =
      bucket2 (state2f02hl b) (norm_state (state n)) key ++ [name n] ∧
    ∀ s' k', (s', k') ≠ (norm_state (state n), key) →
             bucket2 (state2f02hl b') s' k' = bucket2 (state2f02hl b) s' k'.
Proof.
  intros Hq. unfold visit. rewrite Hq. cbn.
  unfold features_split, primary_feature.
  destruct (features n) as [[fs|l]|]; cbn; [|done..].
  destruct (split_nonempty "," fs) as (t0 & rest & Hsplit). rewrite Hsplit. cbn.
  intros Hv. exists fs. rewrite Hsplit.
  assert (∃ key, (if decide (t0 = location_sentinel) then head rest else Some t0) = Some key ∧
                 state2f02hl b' = push2 (state2f02hl b) (norm_state (state n)) key (name n))
    as (key & Hkey & Hb').
  { case_decide.
    - destruct rest as [|t1 rest]; unfold index in Hv; cbn in Hv; [done|]. exists t1. split; [reflexivity|].
      destruct gres_mode; [by simplify_eq|].
      destruct (getInfoGres n); cbn in Hv; by simplify_eq.
    - cbn in Hv. exists t0. split; [done|].
      destruct gres_mode; [by simplify_eq|].
      destruct (getInfoGres n); cbn in Hv; by simplify_eq. }
  exists key. rewrite Hb'. split_and!; [done|exact Hkey| |].
  - by rewrite bucket2_push2, decide_True.
  - intros s' k' Hne. by rewrite bucket2_push2, decide_False.
Qed.

Lemma primary_feature_bucket_witness :
  ∃ b', visit false ETrue no_buckets workergpu046 = Ok b' ∧
        bucket2 (state2f02hl b') "IDLE" "gpu" = ["workergpu046"].
Proof.
  eexists. split; [reflexivity|].
  destruct (primary_feature_bucket false ETrue no_buckets workergpu046 _ eq_refl eq_refl)
    as (fs & key & Hfs & Hkey & Hb & _).
  injection Hfs as <-. injection Hkey as <-. exact Hb.
Defined.

(** The sentinel is skipped. *)
Example primary_feature_sentinel : primary_feature "location=local,rome,ib" = Some "rome".
Proof. reflexivity. Qed.

(** ** Totals of a host list *)

(** The loop variable after a loop that breaks at the first element
    satisfying [p]. *)
Lemma for_break_find (p : string → bool) l x i y :
  list_find (λ z, p z = true) l = Some (i, y) → for_break p l x = Some y.
Proof.
  revert x i. induction l as [|z l IH]; intros x i; [done|].
  cbn [list_find for_break]. destruct (p z) eqn:Hz.
  - rewrite decide_True by done. by intros [= _ ->].
  - rewrite decide_False by done.
    destruct (list_find (λ z, p z = true) l) as [[j w]|] eqn:E; [|done].
    intros [= _ ->]. by eapply IH.
Qed.

#[local] Arguments gpu_count : simpl never.
#[local] Arguments gpuCountRe_search : simpl never.
#[local] Arguments for_break : simpl never.
#[local] Arguments signals_gpu : simpl never.

Lemma io_bind_ok {A B} (f : A → io B) l a :
  ((l, Ok a) : io A) ≫= f = (l ++ (f a).1, (f a).2).
Proof. unfold mbind, io_bind. by destruct (f a). Qed.

Lemma io_bind_raise {A B} (f : A → io B) l e :
  ((l, Raise e) : io A) ≫= f = (l, Raise e).
Proof. done. Qed.

Lemma io_for_each_ok {A S} (f : S → A → io S) l s :
  (∀ s x, ∃ log s', f s x = (log, Ok s')) →
  ∃ log s', io_for_each f l s = (log, Ok s').
Proof.
  intros Hf. revert s. induction l as [|x l IH]; intros s; [by eexists _, _|].
  cbn [io_for_each]. destruct (Hf s x) as (l1 & s1 & ->).
  rewrite io_bind_ok. destruct (IH s1) as (l2 & s2 & ->). by eexists _, _.
Qed.

(** Counting the jobs of a host raises nothing. *)
Lemma count_jobs_ok snap cb h d : ∃ log d', count_jobs snap cb h d = (log, Ok d').
Proof.
  unfold count_jobs. destruct cb as [c|]; [|by eexists _, _].
  apply io_for_each_ok. intros m j.
  assert (∃ l k, (match c with ByPartition => get_partition | ByUser => get_user snap end) j
                 = (l, Ok k)) as (l & k & ->).
  { destruct c; [by eexists _, _|]. unfold get_user.
    destruct (uid2user snap !! user_id j); by eexists _, _. }
  rewrite io_bind_ok. by eexists _, _.
Qed.

(** The body of the loop for a host whose features signal a GPU and
    whose two loop variables end up bound to [g] and [u], [g] matching the
    count pattern. *)
Lemma summarize_host_gpu snap cb t h node g u k :
  nodes snap !! h = Some node →
  signals_gpu node = Ok true →
  for_break starts_gpu (gres node) (v_gres t) = Some g →
  gpu_count (Some g) = Ok k →
  for_break starts_gpu (gres_used node) (v_gres_used t) = Some u →
  ∃ log d,
    count_jobs snap cb h (t_cb2jc t) = (log, Ok d) ∧
    summarize_host snap cb t h =
      match gpu_count (Some u) with
      | Ok ka =>
          (log, Ok {| t_cpus := t_cpus t + cpus node;
                      t_cpus_allocated := t_cpus_allocated t + alloc_cpus node;
                      t_gpus := t_gpus t + k;
                      t_gpus_allocated := t_gpus_allocated t + ka;
                      t_cb2jc := d; v_gres := Some g; v_gres_used := Some u |})
      | Raise e =>
          (log ++ [Stderr (Skipping h u (gres node) (gres_used node) e)],
           Ok {| t_cpus := t_cpus t + cpus node;
                 t_cpus_allocated := t_cpus_allocated t + alloc_cpus node;
                 t_gpus := t_gpus t + k;
                 t_gpus_allocated := t_gpus_allocated t;
                 t_cb2jc := d; v_gres := Some g; v_gres_used := Some u |})
      end.
Proof.
  intros Hn Hs Hg Hk Hu. destruct (count_jobs_ok snap cb h (t_cb2jc t)) as (log & d & Hc).
  exists log, d. split; [done|]. unfold summarize_host.
  rewrite Hc. unfold node_of. rewrite Hn. cbn. rewrite Hs. cbn. rewrite Hg, Hu, Hk. cbn.
  destruct (gpu_count (Some u)) as [ka|e]; cbn; by rewrite ?app_nil_r.
Qed.

(** X26: for a host whose features signal a GPU and whose GRES list and
    GRES-in-use list each hold a descriptor that starts with [gpu] and
    matches the count pattern, the GPU total grows by the count parsed
    from the first such descriptor of the GRES list, and the allocated
    count by the count parsed from the first such descriptor of the
    GRES-in-use list, whatever the loop variables held before. *)
Theorem gpu_counts_from_first_descriptor snap cb t h node i g k j u ka :
  nodes snap !! h = Some node →
  signals_gpu node = Ok true →
  list_find (λ d, starts_gpu d = true) (gres node) = Some (i, g) →
  gpu_count (Some g) = Ok k →
  list_find (λ d, starts_gpu d = true) (gres_used node) = Some (j, u) →
  gpu_count (Some u) = Ok ka →
  ∃ log t',
    summarize_host snap cb t h = (log, Ok t') ∧
    t_gpus t' = t_gpus t + k ∧
    t_gpus_allocated t' = t_gpus_allocated t + ka.
Proof.
  intros Hn Hs Hg Hk Hu Hka.
  destruct (summarize_host_gpu snap cb t h node g u k Hn Hs) as (log & d & _ & ->);
    [by eapply for_break_find|done|by eapply for_break_find|].
  rewrite Hka. by eexists _, _.
Qed.

Lemma gpu_counts_from_first_descriptor_witness :
  ∃ log t',
    summarize_host sample None tally0 "workergpu055" = (log, Ok t') ∧
    t_gpus t' = 0 + 4 ∧ t_gpus_allocated t' = 0 + 4.
Proof.
  apply (gpu_counts_from_first_descriptor sample None tally0 "workergpu055" workergpu055
           0%nat "gpu:v100-32gb:4(S:0-1)" 4 0%nat "gpu:v100-32gb:4(IDX:0-3)" 4);
    reflexivity.
Defined.

(** C7 (code defect): this node signals a GPU and its GRES list is empty,
    so the loop that looks for the first descriptor starting with [gpu]
    binds nothing.  Listed after a GPU node, the node adds that node's
    count to the GPU total once more, although it has no GPU descriptor of
    its own; alone in its list it aborts the totals on the unbound
    variable. *)
Theorem gpu_count_of_previous_host :
  signals_gpu workergpu300 = Ok true ∧
  gres workergpu300 = [] ∧
  uniq ["workergpu300"; "workergpu046"] = ["workergpu046"; "workergpu300"] ∧
  (∃ log t,
     summarize_hl (snapshot_of [workergpu046; workergpu300]) ["workergpu046"] None
       = (log, Ok t) ∧ t_gpus t = 2) ∧
  (∃ log t,
     summarize_hl (snapshot_of [workergpu046; workergpu300])
                  ["workergpu046"; "workergpu300"] None = (log, Ok t) ∧
     t_gpus t = 4) ∧
  (summarize_hl (snapshot_of [workergpu046; workergpu300]) ["workergpu300"] None).2
    = Raise UnboundLocalError.
Proof.
  split_and!; [reflexivity..| | |reflexivity]; eexists _, _; by vm_compute.
Qed.

(** C8 (as amended): when the descriptor selected for the total matches
    the count pattern and the one selected for the allocation does not,
    the loop goes on: a line naming the host is written to standard error,
    the allocated GPU count is unchanged, and the CPU capacity and
    allocation of the node are added. *)
Theorem unparsable_allocation_is_skipped snap cb t h node g u k :
  nodes snap !! h = Some node →
  signals_gpu node = Ok true →
  for_break starts_gpu (gres node) (v_gres t) = Some g →
  gpu_count (Some g) = Ok k →
  for_break starts_gpu (gres_used node) (v_gres_used t) = Some u →
  gpuCountRe_search u = None →
  ∃ log t',
    summarize_host snap cb t h = (log, Ok t') ∧
    Stderr (Skipping h u (gres node) (gres_used node) AttributeError) ∈ log ∧
    t_gpus_allocated t' = t_gpus_allocated t ∧
    t_cpus t' = t_cpus t + cpus node ∧
    t_cpus_allocated t' = t_cpus_allocated t + alloc_cpus node.
Proof.
  intros Hn Hs Hg Hk Hu Hnone.
  destruct (summarize_host_gpu snap cb t h node g u k Hn Hs Hg Hk Hu) as (log & d & _ & ->).
  unfold gpu_count at 1. rewrite Hnone. eexists _, _. split_and!; [done| |done..].
  apply elem_of_app. right. left.
Qed.

Lemma unparsable_allocation_is_skipped_witness :
  ∃ log t',
    summarize_host (snapshot_of [workergpu100]) None tally0 "workergpu100" = (log, Ok t') ∧
    Stderr (Skipping "workergpu100" "gpu:0" ["gpu:a100:4(S:0-1)"] ["gpu:0"] AttributeError)
      ∈ log ∧
    t_gpus_allocated t' = 0 ∧ t_cpus t' = 0 + 64 ∧ t_cpus_allocated t' = 0 + 16.
Proof.
  apply (unparsable_allocation_is_skipped (snapshot_of [workergpu100]) None tally0
           "workergpu100" workergpu100 "gpu:a100:4(S:0-1)" "gpu:0" 4); reflexivity.
Defined.

(** C8 (as stated) fails: the in-use descriptor of this node does not
    match the count pattern, and the run aborts all the same, because the
    descriptor selected for the total does not match either and that
    count is parsed outside the handler. *)
Lemma unparsable_total_aborts :
  signals_gpu workergpu200 = Ok true ∧
  for_break starts_gpu (gres_used workergpu200) None = Some "gpu:0" ∧
  gpuCountRe_search "gpu:0" = None ∧
  (summarize_hl (snapshot_of [workergpu200]) ["workergpu200"] None).2 = Raise AttributeError ∧
  snd <$> main plain_args (snapshot_of [workergpu200]) = Some (Raise AttributeError).
Proof. split_and!; by vm_compute. Qed.

(** The presence test on a feature string is a substring test. *)
Lemma signals_gpu_string n s :
  features n = Some (FeatStr s) →
  signals_gpu n = Ok (Py.contains "gpu" s || Py.contains "amdgpu" s || Py.contains "gh" s).
Proof. unfold signals_gpu. by intros ->. Qed.

(** C6 (code defect): the feature tokens of this node are "icelake" and
    "highmem", none of "gpu", "amdgpu" and "gh"; the substring test finds
    "gh" inside "highmem", and the node adds 4 to the GPU total and 1 to
    the allocated count of its bucket. *)
Theorem gpu_presence_by_substring :
  getInfoFeatures worker7001 = ["icelake"; "highmem"] ∧
  signals_gpu worker7001 = Ok true ∧
  ∃ t, summarize_hl (snapshot_of [worker7001]) ["worker7001"] None = ([], Ok t) ∧
       t_gpus t = 4 ∧ t_gpus_allocated t = 1.
Proof. split_and!; [reflexivity..|]. eexists. by vm_compute. Qed.

(** The same defect on a node without GPUs: alone in its bucket it makes
    the run abort on the unbound loop variable; after a GPU node it
    repeats that node's GPU count. *)
Example substring_test_unbound_variable :
  (summarize_hl (snapshot_of [workerhm01]) ["workerhm01"] None).2 = Raise UnboundLocalError.
Proof. reflexivity. Qed.

Example substring_test_stale_variable :
  ∃ log t,
    summarize_hl (snapshot_of [workergpu046; workerhm01])
                 (uniq ["workerhm01"; "workergpu046"]) None = (log, Ok t) ∧
    t_gpus t = 4.
Proof. eexists _, _. by vm_compute. Qed.

(** ** Host lists *)

Lemma elem_of_drop_repeats x l : x ∈ drop_repeats l ↔ x ∈ l.
Proof.
  induction l as [|y l IH]; [done|]. cbn [drop_repeats].
  destruct l as [|z l]; [done|]. case_decide as E.
  - subst z. rewrite IH, !elem_of_cons. tauto.
  - rewrite elem_of_cons, IH. by rewrite (elem_of_cons (z :: l)).
Qed.

Lemma NoDup_drop_repeats l : StronglySorted String.le l → NoDup (drop_repeats l).
Proof.
  induction 1 as [|x l Hs IH Hx]; [constructor|]. cbn [drop_repeats].
  destruct l as [|y l]; [apply NoDup_singleton|].
  case_decide as E; [done|]. constructor; [|done].
  rewrite elem_of_drop_repeats. intros [->|Hin]%elem_of_cons; [done|].
  apply E. apply (anti_symm String.le).
  - by apply Forall_cons in Hx as [? _].
  - apply StronglySorted_inv in Hs as [_ Hy].
    by eapply Forall_forall in Hy.
Qed.

Lemma elem_of_uniq h hl : h ∈ uniq hl ↔ h ∈ hl.
Proof. unfold uniq. by rewrite elem_of_drop_repeats, merge_sort_Permutation. Qed.

Lemma NoDup_uniq hl : NoDup (uniq hl).
Proof. apply NoDup_drop_repeats, StronglySorted_merge_sort; apply _. Qed.


Lemma uniq_elements hl : uniq hl ≡ₚ elements (members hl).
Proof.
  apply NoDup_Permutation; [apply NoDup_uniq|apply NoDup_elements|].
  intros h. unfold members. by rewrite elem_of_elements, elem_of_list_to_set, elem_of_uniq.
Qed.


Lemma uniq_NoDup_length hl : NoDup hl → length (uniq hl) = length hl.
Proof.
  intros Hnd. apply Permutation_length, NoDup_Permutation; [apply NoDup_uniq|done|].
  intros h. apply elem_of_uniq.
Qed.

Lemma Zsum_perm f l k : l ≡ₚ k → Zsum f l = Zsum f k.
Proof. unfold Zsum. induction 1; cbn; lia. Qed.

(** ** What the monad logs *)

Lemma elem_of_bind_log {A B} (m : io A) (f : A → io B) ev :
  ev ∈ (m ≫= f).1 → ev ∈ m.1 ∨ ∃ a, m.2 = Ok a ∧ ev ∈ (f a).1.
Proof.
  destruct m as [l [a|e]]; [|by left].
  rewrite io_bind_ok. cbn. intros [?|?]%elem_of_app; [by left|right; eauto].
Qed.

Lemma bind_ok_inv {A B} (m : io A) (f : A → io B) log b :
  m ≫= f = (log, Ok b) →
  ∃ l1 a l2, m = (l1, Ok a) ∧ f a = (l2, Ok b) ∧ log = l1 ++ l2.
Proof.
  destruct m as [l [a|e]]; [|done]. rewrite io_bind_ok.
  destruct (f a) as [l2 r] eqn:E. cbn. intros [= <- ->]. by eexists _, _, _.
Qed.

Lemma io_for_each_elem {A S} (f : S → A → io S) l s ev :
  ev ∈ (io_for_each f l s).1 → ∃ s' x, x ∈ l ∧ ev ∈ (f s' x).1.
Proof.
  revert s. induction l as [|x l IH]; intros s; cbn [io_for_each].
  - by intros ?%elem_of_nil.
  - intros [H|(s1 & _ & H)]%elem_of_bind_log.
    + exists s, x. split; [left|done].
    + destruct (IH _ H) as (s' & y & Hy & Hev). exists s', y. split; [by right|done].
Qed.

Lemma count_jobs_log snap cb h d ev : ev ∈ (count_jobs snap cb h d).1 → is_stderr ev.
Proof.
  unfold count_jobs. destruct cb as [c|]; [|by intros ?%elem_of_nil].
  intros (m & j & _ & H)%io_for_each_elem.
  apply elem_of_bind_log in H as [H|(k & _ & H)]; [|by apply elem_of_nil in H].
  destruct c; [by apply elem_of_nil in H|]. unfold get_user in H.
  destruct (uid2user snap !! user_id j); [by apply elem_of_nil in H|].
  cbn in H. by apply list_elem_of_singleton in H as ->.
Qed.

(** [summarize_hl] writes to standard error only. *)
Lemma summarize_host_log snap cb t h ev :
  ev ∈ (summarize_host snap cb t h).1 → is_stderr ev.
Proof.
  unfold summarize_host.
  intros [H|(d & _ & H)]%elem_of_bind_log; [by eapply count_jobs_log|].
  apply elem_of_bind_log in H as [H|(node & _ & H)]; [by apply elem_of_nil in H|].
  apply elem_of_bind_log in H as [H|(sig & _ & H)]; [by apply elem_of_nil in H|].
  destruct sig; [|by apply elem_of_nil in H].
  apply elem_of_bind_log in H as [H|(k & _ & H)]; [by apply elem_of_nil in H|].
  apply elem_of_bind_log in H as [H|(ka & _ & H)]; [|by apply elem_of_nil in H].
  unfold try_except in H.
  destruct (gpu_count (for_break starts_gpu (gres_used node) (v_gres_used t))) as [x|e];
    cbn in H; [by apply elem_of_nil in H|].
  destruct (for_break starts_gpu (gres_used node) (v_gres_used t)) as [u|];
    cbn in H; [|by apply elem_of_nil in H].
  by apply list_elem_of_singleton in H as ->.
Qed.

Lemma summarize_hl_log snap hl cb ev : ev ∈ (summarize_hl snap hl cb).1 → is_stderr ev.
Proof.
  unfold summarize_hl. intros (t & h & _ & H)%io_for_each_elem.
  by eapply summarize_host_log.
Qed.

(** ** CPU totals of a host list *)

Lemma summarize_host_cpus snap cb t h log t' :
  summarize_host snap cb t h = (log, Ok t') →
  t_cpus t' = t_cpus t + cpus_of snap h ∧
  t_cpus_allocated t' = t_cpus_allocated t + alloc_cpus_of snap h.
Proof.
  unfold summarize_host, cpus_of, alloc_cpus_of, node_of.
  intros (l1 & d & l2 & _ & H & _)%bind_ok_inv.
  destruct (nodes snap !! h) as [node|]; [|done]. cbn [fmap option_fmap option_map default].
  apply bind_ok_inv in H as (l3 & node' & l4 & [= _ <-] & H & _).
  apply bind_ok_inv in H as (l5 & sig & l6 & _ & H & _).
  destruct sig; [|by injection H as _ <-].
  apply bind_ok_inv in H as (l7 & k & l8 & _ & H & _).
  apply bind_ok_inv in H as (l9 & ka & l10 & _ & H & _).
  by injection H as _ <-.
Qed.

Lemma summarize_loop_cpus snap cb hl t log t' :
  io_for_each (summarize_host snap cb) hl t = (log, Ok t') →
  t_cpus t' = t_cpus t + Zsum (cpus_of snap) hl ∧
  t_cpus_allocated t' = t_cpus_allocated t + Zsum (alloc_cpus_of snap) hl.
Proof.
  revert t log. induction hl as [|h hl IH]; intros t log; cbn [io_for_each Zsum foldr].
  - intros [= _ <-]. lia.
  - intros (l1 & t1 & l2 & H1 & H2 & _)%bind_ok_inv.
    apply summarize_host_cpus in H1 as [E1 E2].
    apply IH in H2 as [-> ->]. rewrite E1, E2.
    fold (Zsum (cpus_of snap) hl). fold (Zsum (alloc_cpus_of snap) hl). lia.
Qed.

(** The CPU totals of a bucket count every distinct member once. *)
Lemma summarize_uniq_cpus snap cb hl log t :
  summarize_hl snap (uniq hl) cb = (log, Ok t) →
  t_cpus t = Zsum (cpus_of snap) (elements (members hl)) ∧
  t_cpus_allocated t = Zsum (alloc_cpus_of snap) (elements (members hl)).
Proof.
  intros [-> ->]%summarize_loop_cpus.
  by rewrite !(Zsum_perm _ _ _ (uniq_elements hl)).
Qed.

(** ** The lines of the report *)

Lemma sorted_items_elem {V} (m : gmap string V) s v :
  (s, v) ∈ sorted_items m ↔ m !! s = Some v.
Proof. unfold sorted_items. by rewrite merge_sort_Permutation, elem_of_map_to_list. Qed.


Lemma ok_snd {A} (m : io A) a : m.2 = Ok a → m = (m.1, Ok a).
Proof. destruct m as [l r]. cbn. by intros ->. Qed.






(** C1 (code defect): in this snapshot the state MIXED holds a GPU node
    and a node without GPUs.  The bucket of the primary feature [rome]
    holds the second node only, and the totals computed over that bucket
    have no GPU; yet the line printed for it shows the pair (4, 4), which
    is the pair of the state line: the feature loop prints the variable
    that the state line set and does not set it anew, as the GRES loop
    does. *)
Theorem feature_line_repeats_state_gpus :
  ∃ b log tot l,
    select false ETrue (nodes mixed_pair) = Ok b ∧
    main plain_args mixed_pair = Some (log, Ok tot) ∧
    log !! 1%nat = Some (Stdout (FeatureLine l)) ∧
    label l = "rome" ∧ n_nodes l = 1 ∧ gpu_info l = Some (4, 4) ∧
    uniq (bucket2 (state2f02hl b) "MIXED" "rome") = ["worker5010"] ∧
    ∃ t, summarize_hl mixed_pair ["worker5010"] None = ([], Ok t) ∧
         t_gpus t = 0 ∧ t_gpus_allocated t = 0.
Proof.
  eexists _, _, _, _. split_and!; [by vm_compute..|]. eexists. by vm_compute.
Qed.

(** ** The state buckets and the grand total *)

Lemma visit_state2hl gres_mode fexp b n b' :
  visit gres_mode fexp b n = Ok b' →
  state2hl b' =
    if decide (qualified gres_mode fexp n)
    then push1 (state2hl b) (norm_state (state n)) (name n)
    else state2hl b.
Proof.
  unfold visit. destruct (decide (qualified gres_mode fexp n)) as [Hq|Hq];
    unfold qualified in Hq.
  - rewrite Hq. cbn.
    destruct (features_split n) as [ff|]; cbn; [|done].
    destruct (index ff 0) as [f0|]; cbn; [|done].
    destruct (if decide (f0 = location_sentinel) then index ff 1 else Ok f0) as [f|];
      cbn; [|done].
    destruct gres_mode; [by intros [= <-]|].
    destruct (getInfoGres n); cbn; [by intros [= <-]|done].
  - destruct (qualifies gres_mode fexp n) as [[|]|e]; cbn; [done| |done].
    by intros [= <-].
Qed.

(** After the loop, the bucket of a state holds the names of the
    qualifying nodes of that state, in the order of the loop. *)
Lemma for_each_state2hl gres_mode fexp ns b0 b s :
  for_each (visit gres_mode fexp) ns b0 = Ok b →
  dd_get inithl (state2hl b) s =
  dd_get inithl (state2hl b0) s ++
  (name <$> filter (λ n, qualified gres_mode fexp n ∧ norm_state (state n) = s) ns).
Proof.
  revert b0. induction ns as [|n ns IH]; intros b0; cbn [for_each].
  - intros [= <-]. by rewrite app_nil_r.
  - destruct (visit gres_mode fexp b0 n) as [b1|] eqn:Hv; [|done].
    intros Hrest. change (for_each (visit gres_mode fexp) ns b1 = Ok b) in Hrest.
    rewrite (IH _ Hrest), (visit_state2hl _ _ _ _ _ Hv), filter_cons.
    destruct (decide (qualified gres_mode fexp n)) as [Hq|Hq].
    + rewrite dd_get_push1. destruct (decide (s = norm_state (state n))) as [->|Hs].
      * rewrite decide_True by done. by rewrite <-app_assoc.
      * rewrite decide_False; [done|]. intros [_ ?]. by apply Hs.
    + rewrite decide_False; [done|]. by intros [? _].
Qed.

Lemma sized_push1 (d : gmap string hostlist) s h :
  sum_list_with (λ item, length item.2) (map_to_list (push1 d s h)) =
  S (sum_list_with (λ item, length item.2) (map_to_list d)).
Proof.
  unfold push1, dd_get, push. destruct (d !! s) as [hl|] eqn:E; cbn [default].
  - rewrite <-insert_delete_eq, map_to_list_insert by apply lookup_delete_eq.
    rewrite <-(map_to_list_delete d s hl E). cbn. rewrite length_app. cbn. lia.
  - rewrite map_to_list_insert by done. done.
Qed.

Lemma for_each_sized gres_mode fexp ns b0 b :
  for_each (visit gres_mode fexp) ns b0 = Ok b →
  sum_list_with (λ item, length item.2) (map_to_list (state2hl b)) =
  (sum_list_with (λ item, length item.2) (map_to_list (state2hl b0)) +
   length (selected gres_mode fexp ns))%nat.
Proof.
  unfold selected. revert b0. induction ns as [|n ns IH]; intros b0; cbn [for_each].
  - intros [= <-]. cbn. lia.
  - destruct (visit gres_mode fexp b0 n) as [b1|] eqn:Hv; [|done].
    intros Hrest. change (for_each (visit gres_mode fexp) ns b1 = Ok b) in Hrest.
    rewrite (IH _ Hrest), (visit_state2hl _ _ _ _ _ Hv), filter_cons.
    destruct (decide (qualified gres_mode fexp n)).
    + rewrite sized_push1. cbn. lia.
    + lia.
Qed.

Lemma names_of_values (nodes : gmap string node) :
  keyed_by_name nodes → NoDup (name <$> values nodes).
Proof.
  intros Hk. unfold values.
  assert (name <$> (map_to_list nodes).*2 = (map_to_list nodes).*1) as ->;
    [|apply NoDup_fst_map_to_list].
  assert (Forall (λ p, name p.2 = p.1) (map_to_list nodes)) as Hall.
  { apply Forall_forall. intros [k n] Hin%elem_of_map_to_list. by apply Hk. }
  induction Hall as [|[k n] l Hn _ IH]; [done|]. cbn in *. by rewrite Hn, IH.
Qed.

Lemma counted_items_perm l k : l ≡ₚ k → counted_items l = counted_items k.
Proof. unfold counted_items. induction 1; cbn; lia. Qed.

Lemma counted_NoDup (items : list (string * hostlist)) :
  Forall (λ item, NoDup item.2) items →
  counted_items items = Z.of_nat (sum_list_with (λ item, length item.2) items).
Proof.
  induction 1 as [|item items Hnd _ IH]; [done|].
  cbn. fold (counted_items items). rewrite IH. unfold count.
  rewrite (uniq_NoDup_length _ Hnd). lia.
Qed.

Lemma report_state_total a snap b tot item log tot' :
  report_state a snap b tot item = (log, Ok tot') →
  total_nodes tot' = total_nodes tot + count (uniq item.2).
Proof.
  unfold report_state.
  intros (l1 & t & l2 & _ & H & _)%bind_ok_inv.
  apply bind_ok_inv in H as (l3 & ? & l4 & _ & H & _).
  apply bind_ok_inv in H as (l5 & ? & l6 & _ & H & _).
  apply bind_ok_inv in H as (l7 & ? & l8 & _ & H & _).
  by injection H as _ <-.
Qed.

Lemma report_loop_total a snap b items tot log tot' :
  io_for_each (report_state a snap b) items tot = (log, Ok tot') →
  total_nodes tot' = total_nodes tot + counted_items items.
Proof.
  revert tot log. induction items as [|item items IH]; intros tot log; cbn [io_for_each].
  - intros [= _ <-]. cbn. lia.
  - intros (l1 & tot1 & l2 & H1 & H2 & _)%bind_ok_inv.
    apply report_state_total in H1. apply IH in H2. rewrite H2, H1.
    cbn. fold (counted_items items). lia.
Qed.

(** The grand total that the report prints is the sum of the node counts
    of the state buckets. *)
Lemma report_total a snap b log tot :
  report a snap b = (log, Ok tot) →
  total_nodes tot = counted (state2hl b) ∧
  ∃ c ca g, Stdout (TotalLine (total_nodes tot) c ca g) ∈ log.
Proof.
  unfold report.
  intros (l1 & tot1 & l2 & H1 & H & ->)%bind_ok_inv.
  apply bind_ok_inv in H as (l3 & u1 & l4 & Hp & H & ->).
  apply bind_ok_inv in H as (l5 & u2 & l6 & _ & Hret & ->).
  injection Hp as <- _. injection Hret as _ <-.
  apply report_loop_total in H1. split.
  - rewrite H1. unfold counted, sorted_items. cbn.
    apply counted_items_perm, merge_sort_Permutation.
  - eexists _, _, _. rewrite !elem_of_app, list_elem_of_singleton. right. left. done.
Qed.

Lemma fmap_NoDup_inj {A B} (f : A → B) (l : list A) x y :
  NoDup (f <$> l) → x ∈ l → y ∈ l → f x = f y → x = y.
Proof.
  induction l as [|z l IH]; [by intros _ ?%elem_of_nil|].
  rewrite fmap_cons, NoDup_cons, !elem_of_cons.
  intros [Hz Hnd] [->|Hx] [->|Hy] Hf; [done| | |by apply IH].
  - destruct Hz. rewrite Hf. by apply list_elem_of_fmap_2.
  - destruct Hz. rewrite <-Hf. by apply list_elem_of_fmap_2.
Qed.

(** C10: when the node table is keyed by the node names and the selection
    loop completes, every state bucket is free of duplicates and a
    qualifying node is in the bucket of a state iff that state is its own
    normalised state; the sum over the states of the deduplicated node
    counts is the number of qualifying nodes, and it is the grand total
    that a completed report prints. *)
Theorem nodes_counted_once a snap fexp b :
  keyed_by_name (nodes snap) →
  select (arg_gres a) fexp (nodes snap) = Ok b →
  (∀ s, NoDup (dd_get inithl (state2hl b) s)) ∧
  (∀ n, n ∈ values (nodes snap) → qualified (arg_gres a) fexp n →
        ∀ s, name n ∈ dd_get inithl (state2hl b) s ↔ s = norm_state (state n)) ∧
  counted (state2hl b) =
    Z.of_nat (length (selected (arg_gres a) fexp (values (nodes snap)))) ∧
  ∀ log tot, report a snap b = (log, Ok tot) →
    total_nodes tot = counted (state2hl b) ∧
    ∃ c ca g, Stdout (TotalLine (total_nodes tot) c ca g) ∈ log.
Proof.
  intros Hkey%names_of_values Hsel. unfold select in Hsel.
  assert (∀ s, dd_get inithl (state2hl b) s =
               name <$> filter (λ n, qualified (arg_gres a) fexp n ∧ norm_state (state n) = s)
                               (values (nodes snap))) as Hb.
  { intros s. rewrite (for_each_state2hl _ _ _ _ _ s Hsel).
    unfold dd_get at 1. cbn [state2hl no_buckets]. by rewrite lookup_empty. }
  assert (∀ s, NoDup (dd_get inithl (state2hl b) s)) as Hnd.
  { intros s. rewrite Hb. eapply sublist_NoDup; [done|].
    apply fmap_sublist, sublist_filter. }
  split_and!; [done| | |by apply report_total].
  - intros n Hn Hq s. rewrite Hb, list_elem_of_fmap. split.
    + intros (m & Hname & [[_ Hs] Hm]%list_elem_of_filter).
      by rewrite (fmap_NoDup_inj name _ n m Hkey Hn Hm Hname).
    + intros ->. exists n. split; [done|]. by apply list_elem_of_filter.
  - unfold counted. rewrite counted_NoDup.
    + f_equal. by rewrite (for_each_sized _ _ _ _ _ Hsel).
    + apply Forall_forall. intros [s hl] Hin%elem_of_map_to_list. cbn.
      specialize (Hnd s). unfold dd_get in Hnd. by rewrite Hin in Hnd.
Qed.

Lemma nodes_counted_once_witness :
  ∃ b log tot,
    select false ETrue (nodes sample) = Ok b ∧
    report plain_args sample b = (log, Ok tot) ∧
    counted (state2hl b) = 5 ∧ total_nodes tot = 5.
Proof.
  destruct (select false ETrue (nodes sample)) as [b|e] eqn:Hb; [|by vm_compute in Hb].
  pose proof Hb as Hb'. vm_compute in Hb'. injection Hb' as Hb'.
  destruct (report plain_args sample b) as [log [tot|e]] eqn:Hr;
    [|by rewrite <-Hb' in Hr; vm_compute in Hr].
  exists b, log, tot.
  destruct (nodes_counted_once plain_args sample ETrue b) as (_ & _ & Hc & Ht);
    [by apply (bool_decide_unpack _); vm_compute|exact Hb|].
  destruct (Ht _ _ Hr) as [Htot _].
  split_and!; [done|done|by rewrite Hc|by rewrite Htot, Hc].
Defined.

(** ** Running without an expression *)

(** The selection loop evaluates the test of every node it gets past. *)
Lemma for_each_visit_tested gres_mode fexp ns b0 b n :
  for_each (visit gres_mode fexp) ns b0 = Ok b → n ∈ ns →
  ∃ v, qualifies gres_mode fexp n = Ok v.
Proof.
  revert b0. induction ns as [|m ns IH]; intros b0; cbn [for_each];
    [by intros _ ?%elem_of_nil|].
  destruct (visit gres_mode fexp b0 m) as [b1|] eqn:Hv; [|done].
  intros Hrest [->|Hn]%elem_of_cons.
  - unfold visit in Hv. destruct (qualifies gres_mode fexp m); [by eexists|done].
  - by eapply IH.
Qed.

(** The constant [True] holds on every node whose tokens can be read. *)
Lemma qualifies_constant gres_mode n :
  qualifies gres_mode ETrue n = (_ ← getInfo gres_mode n; Ok true).
Proof. reflexivity. Qed.

Lemma select_state_bucket gres_mode fexp (nodes : gmap string node) b s :
  select gres_mode fexp nodes = Ok b →
  dd_get inithl (state2hl b) s =
  name <$> filter (λ n, qualified gres_mode fexp n ∧ norm_state (state n) = s) (values nodes).
Proof.
  intros Hsel. unfold select in Hsel. rewrite (for_each_state2hl _ _ _ _ _ s Hsel).
  unfold dd_get at 1. cbn [state2hl no_buckets]. by rewrite lookup_empty.
Qed.

Lemma select_counted gres_mode fexp (nodes : gmap string node) b :
  keyed_by_name nodes →
  select gres_mode fexp nodes = Ok b →
  counted (state2hl b) = Z.of_nat (length (selected gres_mode fexp (values nodes))).
Proof.
  intros Hkey%names_of_values Hsel. unfold counted. rewrite counted_NoDup.
  - f_equal. unfold select in Hsel. by rewrite (for_each_sized _ _ _ _ _ Hsel).
  - apply Forall_forall. intros [s hl] Hin%elem_of_map_to_list. cbn.
    pose proof (select_state_bucket _ _ _ _ s Hsel) as Hb.
    unfold dd_get in Hb. rewrite Hin in Hb. cbn in Hb. rewrite Hb.
    eapply sublist_NoDup; [done|]. apply fmap_sublist, sublist_filter.
Qed.

Lemma selected_all gres_mode fexp ns :
  (∀ n, n ∈ ns → qualified gres_mode fexp n) → selected gres_mode fexp ns = ns.
Proof.
  unfold selected. induction ns as [|n ns IH]; intros H; [done|].
  rewrite filter_cons, decide_True by (apply H; left).
  f_equal. apply IH. intros m Hm. apply H. by right.
Qed.

(** C3: with no expression words the expression is the literal [True] and
    compiles to the constant, and the script goes on to the selection loop
    and the report.  The test of the loop is true on every node whose
    tokens can be read, which in feature mode is every node.  When the
    loop completes, every node of the snapshot has passed the test and is
    in the bucket of its state; with the node table keyed by the names,
    the state buckets count as many nodes as the snapshot has, and this is
    the grand total a completed report prints. *)
Theorem empty_expression_selects_all a snap :
  arg_features a = [] →
  compile (sanitize (expression (arg_features a))) = Some ETrue ∧
  main a snap = Some (b ← lift (select (arg_gres a) ETrue (nodes snap)); report a snap b) ∧
  (∀ n toks, getInfo (arg_gres a) n = Ok toks → qualified (arg_gres a) ETrue n) ∧
  (arg_gres a = false → ∀ n, qualified (arg_gres a) ETrue n) ∧
  ∀ b, select (arg_gres a) ETrue (nodes snap) = Ok b →
    (∀ n, n ∈ values (nodes snap) →
       qualified (arg_gres a) ETrue n ∧
       name n ∈ dd_get inithl (state2hl b) (norm_state (state n))) ∧
    (keyed_by_name (nodes snap) →
       counted (state2hl b) = Z.of_nat (size (nodes snap)) ∧
       ∀ log tot, report a snap b = (log, Ok tot) →
         total_nodes tot = Z.of_nat (size (nodes snap)) ∧
         ∃ c ca g, Stdout (TotalLine (total_nodes tot) c ca g) ∈ log).
Proof.
  intros Hw.
  assert (compile (sanitize (expression (arg_features a))) = Some ETrue) as Hc
    by (by rewrite Hw).
  split_and!; [done|by unfold main; rewrite Hc| | |].
  - intros n toks Ht. unfold qualified. by rewrite qualifies_constant, Ht.
  - intros Hg n. by rewrite Hg.
  - intros b Hsel.
    assert (∀ n, n ∈ values (nodes snap) → qualified (arg_gres a) ETrue n) as Hall.
    { intros n Hn. unfold select in Hsel.
      destruct (for_each_visit_tested _ _ _ _ _ n Hsel Hn) as [v Hv].
      unfold qualified. rewrite qualifies_constant in Hv |- *.
      by destruct (getInfo (arg_gres a) n). }
    split.
    + intros n Hn. split; [by apply Hall|].
      rewrite (select_state_bucket _ _ _ _ _ Hsel). apply list_elem_of_fmap_2.
      apply list_elem_of_filter. split; [|done]. split; [by apply Hall|done].
    + intros Hkey.
      assert (counted (state2hl b) = Z.of_nat (size (nodes snap))) as Hcount.
      { rewrite (select_counted _ _ _ _ Hkey Hsel), (selected_all _ _ _ Hall).
        unfold values. by rewrite length_fmap, length_map_to_list. }
      split; [done|]. intros log tot Hr.
      destruct (report_total _ _ _ _ _ Hr) as [Ht Hline]. split; [|done].
      by rewrite Ht, Hcount.
Qed.

Lemma empty_expression_selects_all_witness :
  ∃ b, select true ETrue (nodes mixed_pair) = Ok b ∧
       (∀ n, n ∈ values (nodes mixed_pair) →
             name n ∈ dd_get inithl (state2hl b) (norm_state (state n))) ∧
       counted (state2hl b) = 2.
Proof.
  destruct (select true ETrue (nodes mixed_pair)) as [b|e] eqn:Hb; [|by vm_compute in Hb].
  exists b.
  destruct (empty_expression_selects_all
              {| arg_gres := true; arg_node_lists := false; arg_summarize := None;
                 arg_verbose := false; arg_features := [] |} mixed_pair eq_refl)
    as (_ & _ & _ & _ & H).
  destruct (H b Hb) as [Hin Hk]. split_and!; [done|by intros n Hn; apply Hin|].
  by destruct Hk as [-> _]; [apply (bool_decide_unpack _); vm_compute|].
Defined.

(** ** The count pattern and the presence test, further facts *)

Lemma span_all p a b :
  (∀ c, c ∈ list_ascii_of_string a → p c = true) →
  match b with "" => True | String c _ => p c = false end →
  span p (a +:+ b) = (a, b).
Proof.
  intros Ha Hb. induction a as [|c a IH].
  - rewrite append_empty. destruct b as [|c b]; [done|]. cbn. by rewrite Hb.
  - rewrite append_cons. cbn [span]. rewrite Ha by left.
    rewrite IH; [done|]. intros c' Hc'. apply Ha. by right.
Qed.

Lemma gpuCountRe_search_here s d :
  gpuCountRe_match s = Some d → gpuCountRe_search s = Some d.
Proof. intros H. destruct s; unfold gpuCountRe_search; by rewrite H. Qed.

(** A descriptor [gpu:<type>:<digits>...] has the digits as its count. *)
Lemma gpuCountRe_shape ty ds rest :
  ty ≠ "" → (∀ c, c ∈ list_ascii_of_string ty → c ≠ ":"%char) →
  ds ≠ "" → (∀ c, c ∈ list_ascii_of_string ds → is_digit c = true) →
  match rest with "" => True | String c _ => is_digit c = false end →
  gpu_count (Some ("gpu:" +:+ ty +:+ ":" +:+ ds +:+ rest)) = Ok (int_of_digits ds).
Proof.
  intros Hty Hnc Hds Hd Hrest. unfold gpu_count.
  rewrite (gpuCountRe_search_here _ ds); [done|].
  rewrite !append_cons, !append_empty. cbn [gpuCountRe_match].
  rewrite span_all; [|intros c Hc; apply negb_true_iff, bool_decide_eq_false; by apply Hnc|done].
  destruct ty as [|c ty]; [done|].
  rewrite span_all by done. by destruct ds.
Qed.

Lemma splitn_head_prefix sep k s w ws :
  Py.splitn sep k s = w :: ws → String.prefix w s = true.
Proof.
  revert k w ws. induction s as [|c s IH]; intros k w ws.
  - by intros [= <- <-].
  - cbn [Py.splitn]. case_decide.
    + destruct k; intros [= <- <-]; [|done].
      rewrite prefix_cons, bool_decide_eq_true_2 by done. clear. 
      induction s as [|d s IHs]; [done|].
      by rewrite prefix_cons, bool_decide_eq_true_2.
    + destruct (Py.splitn sep k s) as [|w' ws'] eqn:E; intros [= <- <-].
      * by rewrite prefix_cons, bool_decide_eq_true_2, prefix_empty.
      * rewrite prefix_cons, bool_decide_eq_true_2 by done. by eapply IH.
Qed.

(** A comma-separated token of a string is a substring of it. *)
Lemma split_token_contained t s : t ∈ Py.split "," s → Py.contains t s = true.
Proof.
  unfold Py.split. generalize (String.length s). intros k. revert k t.
  induction s as [|c s IH]; intros k t.
  - cbn. by intros ->%list_elem_of_singleton.
  - cbn [Py.splitn]. rewrite contains_cons. case_decide.
    + destruct k.
      * intros ->%list_elem_of_singleton. apply orb_true_intro. left.
        rewrite prefix_cons, bool_decide_eq_true_2 by done. clear.
        induction s as [|d s IHs]; [done|]. by rewrite prefix_cons, bool_decide_eq_true_2.
      * intros [->|Hin]%elem_of_cons; [done|].
        apply orb_true_intro. right. by eapply IH.
    + destruct (Py.splitn "," k s) as [|w ws] eqn:E.
      * intros ->%list_elem_of_singleton.
        by rewrite prefix_cons, bool_decide_eq_true_2, prefix_empty.
      * intros [->|Hin]%elem_of_cons; apply orb_true_intro.
        -- left. rewrite prefix_cons, bool_decide_eq_true_2 by done.
           by eapply splitn_head_prefix.
        -- right. apply (IH k). rewrite E. by right.
Qed.

(** One direction of the presence test is right: a node whose feature
    string has [gpu], [amdgpu] or [gh] as a token signals a GPU. *)
Lemma token_signals_gpu n s t :
  features n = Some (FeatStr s) → t ∈ ["gpu"; "amdgpu"; "gh"] → t ∈ getInfoFeatures n →
  signals_gpu n = Ok true.
Proof.
  intros Hs Ht Hin. rewrite (signals_gpu_string n s Hs). f_equal.
  unfold getInfoFeatures in Hin. rewrite Hs in Hin. cbn in Hin. rewrite app_nil_r in Hin.
  apply split_token_contained in Hin.
  repeat (apply elem_of_cons in Ht as [->|Ht]; [rewrite Hin; by rewrite ?orb_true_r|]).
  by apply elem_of_nil in Ht.
Qed.

(** ** Examples from the specification *)

Example expression_example_false :
  holds (EAnd (EName "gpu") (ENot (EName "v100")))
        (λ x, bool_decide (unescape x ∈ ["gpu"; "skylake"; "v100"])) = false.
Proof. reflexivity. Qed.

Example expression_example_true :
  holds (EAnd (EName "gpu") (ENot (EName "v100")))
        (λ x, bool_decide (unescape x ∈ ["gpu"; "skylake"; "a100"])) = true.
Proof. reflexivity. Qed.

Example compile_example :
  compile (sanitize "(gpu or rome) and not v100-32gb") =
  Some (EAnd (EOr (EName "gpu") (EName "rome")) (ENot (EName "v100___minus___32gb"))).
Proof. reflexivity. Qed.

Example compile_syntax_error :
  compile (sanitize "gpu and") = None ∧ syntax_error (sanitize "gpu and") = true ∧
  main {| arg_gres := false; arg_node_lists := false; arg_summarize := None;
          arg_verbose := false; arg_features := ["gpu"; "and"] |} sample
  = Some ([Stderr (SyntaxErrorIn "gpu and")], Raise SystemExit).
Proof. split_and!; reflexivity. Qed.

(** Texts that Python compiles and the fragment does not hold, or that
    nest too deep, have no code and are not said to be refused. *)
Example outside_the_fragment :
  Forall (λ e, compile (sanitize e) = None ∧ syntax_error (sanitize e) = false)
         ["gpu == skylake"; "__debug__"; "gpu()"; "()"; "gpu if rome else ib"; "None"; "1"].
Proof. repeat constructor. Qed.

Example leading_blank_is_refused :
  compile " gpu" = None ∧ syntax_error " gpu" = true ∧ syntax_error "" = true.
Proof. split_and!; reflexivity. Qed.

Example replace_leftmost : Py.replace "aa" "b" "aaa" = "ba".
Proof. reflexivity. Qed.

Example replace_empty_pattern : Py.replace "" "-" "abc" = "-a-b-c-".
Proof. reflexivity. Qed.

Example split_keeps_empty_pieces : Py.split "," "a,,b," = ["a"; ""; "b"; ""].
Proof. reflexivity. Qed.

Example split_descriptor :
  Py.splitn ":" 2 "gpu:v100-32gb:4(S:0-1)" = ["gpu"; "v100-32gb"; "4(S:0-1)"].
Proof. reflexivity. Qed.

Example norm_state_sample : norm_state (state workergpu040) = "DOWN+DRAIN".
Proof. reflexivity. Qed.

(** The node of the specification's example: filed under its state, under
    the token [gpu] as primary feature and under its GRES type; 2 GPUs, none
    allocated. *)
Example sample_node_buckets :
  (λ b, (dd_get inithl (state2hl b) "IDLE",
         bucket2 (state2f02hl b) "IDLE" "gpu",
         bucket2 (state2gres2hl b) "IDLE" "v100-16gb"))
    <$> visit false ETrue no_buckets workergpu046
  = Ok (["workergpu046"], ["workergpu046"], ["workergpu046"]) ∧
  (λ t, (t_gpus t, t_gpus_allocated t))
    <$> (summarize_hl sample ["workergpu046"] None).2
  = Ok (2, 0).
Proof. split; by vm_compute. Qed.

(** * Further properties *)

(** ** Escaping, once more *)

Lemma contains_char_app a x y :
  Py.contains (String a "") (x +:+ y) =
  Py.contains (String a "") x || Py.contains (String a "") y.
Proof.
  induction x as [|c x IH].
  - rewrite append_empty. destruct y; by cbn.
  - rewrite append_cons, !contains_cons, !prefix_cons, !prefix_empty, IH.
    by rewrite orb_assoc.
Qed.

Lemma contains_char_flat_map a f s :
  (∀ c, Py.contains (String a "") (f c) = false) →
  Py.contains (String a "") (Py.flat_map_chars f s) = false.
Proof.
  intros Hf. induction s as [|c s IH]; [done|].
  cbn [Py.flat_map_chars]. by rewrite contains_char_app, Hf, IH.
Qed.

Lemma spelled_no_special c a :
  a ∈ ["-"; "+"; ":"]%char →
  Py.contains (String a "") (spelled ["-"; "+"; ":"]%char c) = false.
Proof.
  intros Ha. unfold spelled. case_bool_decide as Hin.
  - repeat case_decide; try by (repeat (apply elem_of_cons in Ha as [->|Ha]; [done|]);
      by apply elem_of_nil in Ha).
    exfalso. repeat (apply elem_of_cons in Hin as [->|Hin]; [done|]).
    by apply elem_of_nil in Hin.
  - rewrite contains_cons, prefix_cons, bool_decide_eq_false_2; [done|].
    by intros ->.
Qed.

(** X1: the text handed to [compile] holds none of the three characters
    that are spelled out. *)
Theorem sanitize_no_special e :
  Py.contains "-" (sanitize e) = false ∧
  Py.contains "+" (sanitize e) = false ∧
  Py.contains ":" (sanitize e) = false.
Proof.
  rewrite sanitize_spelled.
  split_and!; apply contains_char_flat_map; intros c; apply spelled_no_special;
    by apply (bool_decide_unpack _).
Qed.

Lemma append_empty_r s : s +:+ "" = s.
Proof. induction s as [|c s IH]; [done|]. by rewrite append_cons, IH. Qed.

(** A pattern that does not occur is not replaced. *)
Lemma replace_absent old new s :
  old ≠ "" → Py.contains old s = false → Py.replace old new s = s.
Proof.
  intros Hold. unfold Py.replace. destruct old as [|a old]; [done|].
  induction s as [|c s IH]; [done|].
  intros [Hp Hs]%contains_cons_false. cbn [Py.replace_go]. by rewrite Hp, IH.
Qed.

Lemma contains_app_true w1 w2 s :
  Py.contains (w1 +:+ w2) s = true → Py.contains w1 s = true.
Proof.
  induction s as [|c s IH].
  - cbn [Py.contains]. rewrite !orb_false_r. apply prefix_app_true.
  - rewrite !contains_cons. intros [H|H]%orb_prop; apply orb_true_intro.
    + left. by eapply prefix_app_true.
    + right. by apply IH.
Qed.

Lemma contains_app_false w1 w2 s :
  Py.contains w1 s = false → Py.contains (w1 +:+ w2) s = false.
Proof.
  intros H. destruct (Py.contains (w1 +:+ w2) s) eqn:E; [|done].
  apply contains_app_true in E. congruence.
Qed.

(** X2: an expression without [-], [+] and [:] is compiled as it is
    written, and a name without three underscores in a row is looked up
    under its own text. *)
Theorem sanitize_unescape_plain :
  (∀ e, Py.contains "-" e = false → Py.contains "+" e = false →
        Py.contains ":" e = false → sanitize e = e) ∧
  (∀ f, Py.contains "___" f = false → unescape f = f).
Proof.
  split.
  - intros e H1 H2 H3. unfold sanitize.
    by rewrite (replace_absent "-"), (replace_absent "+"), (replace_absent ":").
  - intros f Hf. unfold unescape.
    rewrite (replace_absent "___minus___") by (done || by apply (contains_app_false "___" "minus___")).
    rewrite (replace_absent "___plus___") by (done || by apply (contains_app_false "___" "plus___")).
    by rewrite (replace_absent "___colon___")
      by (done || by apply (contains_app_false "___" "colon___")).
Qed.

Lemma sanitize_unescape_plain_witness :
  sanitize "gpu and not skylake" = "gpu and not skylake" ∧ unescape "ib_hdr" = "ib_hdr".
Proof.
  split.
  - apply (proj1 sanitize_unescape_plain); reflexivity.
  - apply (proj2 sanitize_unescape_plain); reflexivity.
Defined.

(** ** One token as the whole expression *)

Lemma rev_app_rev_app s a b :
  String.rev_app (String.rev_app s a) b = String.rev_app a (s +:+ b).
Proof.
  revert a b. induction s as [|c s IH]; intros a b; [done|].
  cbn [String.rev_app]. by rewrite IH.
Qed.

Lemma string_rev_involutive s : String.rev (String.rev s) = s.
Proof. unfold String.rev. rewrite rev_app_rev_app. cbn. apply append_empty_r. Qed.

Lemma ident_char_not_blank c : is_ident_char c = true → is_blank c = false.
Proof.
  intros H. destruct (is_blank c) eqn:E; [|done]. unfold is_blank in E.
  apply orb_prop in E as [E|E]; apply bool_decide_eq_true in E; by subst c.
Qed.

Lemma tokenize_go_word s a :
  all_chars is_ident_char s = true →
  tokenize_go (Some a) s = flush (Some (String.rev_app s a)) [].
Proof.
  revert a. induction s as [|c s IH]; intros a; [done|].
  cbn [all_chars]. intros [Hc Hs]%andb_true_iff.
  cbn [tokenize_go String.rev_app]. rewrite Hc. by apply IH.
Qed.

Lemma compile_identifier x : is_identifier x = true → compile x = Some (EName x).
Proof.
  unfold is_identifier. intros [Hall Hw%bool_decide_eq_true]%andb_true_iff.
  destruct x as [|c x]; [done|]. cbn [all_chars] in Hall.
  apply andb_true_iff in Hall as [Hc Hall].
  assert (tokenize (String c x) = Some [TName (String c x)]) as Ht.
  { unfold tokenize. rewrite (ident_char_not_blank c Hc).
    cbn [tokenize_go]. rewrite Hc. cbn [default].
    rewrite (tokenize_go_word x _ Hall). unfold flush.
    change (String.rev_app x (String c "")) with (String.rev (String c x)).
    by rewrite string_rev_involutive, Hw. }
  unfold compile. by rewrite Ht.
Qed.

(** X3: when the only word of the expression is a token text that is
    read as one name after escaping, and that escaping can be read back, a
    node qualifies iff the token is one of its tokens. *)
Theorem single_token_selects gres_mode t n toks :
  is_identifier (sanitize t) = true →
  escapable t = true →
  getInfo gres_mode n = Ok toks →
  compile (sanitize (expression [t])) = Some (EName (sanitize t)) ∧
  qualifies gres_mode (EName (sanitize t)) n = Ok (bool_decide (t ∈ toks)).
Proof.
  intros Hid Hesc Hg. split; [by apply compile_identifier|].
  rewrite (qualifies_holds _ _ _ _ Hg). cbn [holds].
  by rewrite unescape_sanitize.
Qed.

Lemma single_token_selects_witness :
  compile (sanitize (expression ["v100-32gb"])) = Some (EName (sanitize "v100-32gb")) ∧
  qualifies false (EName (sanitize "v100-32gb")) workergpu055 = Ok true.
Proof.
  apply (single_token_selects false "v100-32gb" workergpu055
           ["gpu"; "skylake"; "v100"; "v100-32gb"; "nvlink"; "sxm2"]); reflexivity.
Defined.

(** ** The binding table *)

Lemma NoDup_co_names e : NoDup (co_names e).
Proof.
  unfold co_names.
  assert (∀ (l acc : list string), NoDup acc →
            NoDup (foldl (λ acc x, if bool_decide (x ∈ acc) then acc else acc ++ [x]) acc l))
    as H; [|apply H; constructor].
  induction l as [|x l IH]; intros acc Hacc; [done|]. cbn [foldl]. apply IH.
  case_bool_decide; [done|]. apply NoDup_app. split_and!; [done| |apply NoDup_singleton].
  by intros y Hy ->%list_elem_of_singleton.
Qed.

(** X4: the names of the compiled expression are listed once each, and
    the binding table of a node binds these names and no other; a name
    outside it raises TypeError. *)
Theorem bindings_cover_names fexp (ns : gset string) :
  NoDup (co_names fexp) ∧
  (∀ x, is_Some (node_locals fexp ns !! x) ↔ x ∈ names fexp) ∧
  (∀ x, x ∉ names fexp → eval (EName x) (node_locals fexp ns) = Raise TypeError).
Proof.
  assert (∀ x, is_Some (node_locals fexp ns !! x) ↔ x ∈ names fexp) as H.
  { intros x. unfold node_locals. rewrite lookup_bindings, <-elem_of_co_names.
    case_decide; [by split|]. split; [by intros [? ?]|done]. }
  split_and!; [apply NoDup_co_names|done|].
  intros x Hx. cbn. destruct (node_locals fexp ns !! x) eqn:E; [|done].
  destruct Hx. apply H. by eexists.
Qed.

Lemma bindings_cover_names_witness :
  eval (EName "rome") (node_locals (EName "gpu") {["gpu"; "rome"]}) = Raise TypeError.
Proof.
  apply (bindings_cover_names (EName "gpu") {["gpu"; "rome"]}).
  apply (bool_decide_unpack _). by vm_compute.
Defined.

(** ** Tokens of a feature string and of a GRES descriptor *)

Lemma join_cons_char sep c w ws :
  join sep (String c w :: ws) = String c (join sep (w :: ws)).
Proof. by destruct ws. Qed.

Lemma join_cons_cons sep x y l : join sep (x :: y :: l) = x +:+ sep +:+ join sep (y :: l).
Proof. done. Qed.

Lemma join_splitn sep k s : join (String sep "") (Py.splitn sep k s) = s.
Proof.
  revert k. induction s as [|c s IH]; intros k; [done|].
  cbn [Py.splitn]. case_decide as Hc.
  - subst c. destruct k; [done|].
    specialize (IH k). destruct (splitn_nonempty sep k s) as (w & ws & E).
    rewrite E in *. by rewrite join_cons_cons, IH.
  - specialize (IH k). destruct (splitn_nonempty sep k s) as (w & ws & E).
    rewrite E in *. by rewrite join_cons_char, IH.
Qed.

Lemma splitn_pieces_no_sep sep k s t :
  (String.length s ≤ k)%nat → t ∈ Py.splitn sep k s →
  Py.contains (String sep "") t = false.
Proof.
  revert k t. induction s as [|c s IH]; intros k t Hk.
  - by intros ->%list_elem_of_singleton.
  - cbn [Py.splitn]. cbn in Hk. case_decide as Hc.
    + destruct k; [lia|]. intros [->|Hin]%elem_of_cons; [done|].
      apply (IH k); [lia|done].
    + destruct (Py.splitn sep k s) as [|w ws] eqn:E.
      * intros ->%list_elem_of_singleton.
        rewrite contains_cons, prefix_cons, bool_decide_eq_false_2; [done|congruence].
      * intros [->|Hin]%elem_of_cons.
        -- rewrite contains_cons, prefix_cons, bool_decide_eq_false_2 by congruence.
           apply (IH k); [lia|]. rewrite E. left.
        -- apply (IH k); [lia|]. rewrite E. by right.
Qed.

(** X5: the tokens of a feature string hold no comma, there is at least
    one of them, and joined with commas they give the string back. *)
Theorem feature_tokens_round_trip n s :
  features n = Some (FeatStr s) →
  join "," (getInfoFeatures n) = s ∧
  getInfoFeatures n ≠ [] ∧
  ∀ t, t ∈ getInfoFeatures n → Py.contains "," t = false.
Proof.
  intros Hs. unfold getInfoFeatures. rewrite Hs. cbn. rewrite app_nil_r.
  split_and!.
  - apply join_splitn.
  - destruct (split_nonempty "," s) as (t0 & rest & ->). done.
  - intros t. by apply splitn_pieces_no_sep.
Qed.

Lemma feature_tokens_round_trip_witness :
  join "," (getInfoFeatures workergpu046) = "gpu,skylake,v100".
Proof. apply (feature_tokens_round_trip workergpu046 "gpu,skylake,v100" eq_refl). Defined.

Lemma splitn_first sep k a r :
  Py.contains (String sep "") a = false →
  Py.splitn sep (S k) (a +:+ String sep r) = a :: Py.splitn sep k r.
Proof.
  induction a as [|c a IH].
  - intros _. rewrite append_empty. cbn [Py.splitn]. by rewrite decide_True.
  - intros [Hc Ha]%contains_cons_false. rewrite prefix_cons, prefix_empty, andb_true_r in Hc.
    apply bool_decide_eq_false in Hc.
    rewrite append_cons. cbn [Py.splitn]. rewrite decide_False by congruence.
    by rewrite IH.
Qed.

(** X6: the token taken from a GRES fragment is the text between its
    first colon and its second colon, or the end when there is no second
    one (for "gpu:4" it is the count). *)
Theorem gres_token_between_colons a b tail :
  Py.contains ":" a = false → Py.contains ":" b = false →
  tail = "" ∨ (∃ r, tail = String ":" r) →
  index (Py.splitn ":" 2 (a +:+ ":" +:+ b +:+ tail)) 1 = Ok b.
Proof.
  intros Ha Hb Ht. rewrite append_cons, append_empty, splitn_first by done.
  destruct Ht as [->|[r ->]].
  - by rewrite append_empty_r, splitn_no_sep.
  - by rewrite splitn_first.
Qed.

Lemma gres_token_between_colons_witness :
  index (Py.splitn ":" 2 ("gpu" +:+ ":" +:+ "v100-32gb" +:+ ":4(S:0-1)")) 1 = Ok "v100-32gb" ∧
  index (Py.splitn ":" 2 ("gpu" +:+ ":" +:+ "4" +:+ "")) 1 = Ok "4".
Proof.
  split.
  - apply gres_token_between_colons; [reflexivity..|]. right. by eexists.
  - apply gres_token_between_colons; [reflexivity..|]. by left.
Defined.

(** ** The count pattern *)

Lemma span_spec p s a b :
  span p s = (a, b) →
  s = a +:+ b ∧ all_chars p a = true ∧
  match b with "" => True | String c _ => p c = false end.
Proof.
  revert a b. induction s as [|c s IH]; intros a b.
  - by intros [= <- <-].
  - cbn [span]. destruct (p c) eqn:Hc.
    + destruct (span p s) as [a' b'] eqn:E. intros [= <- <-].
      destruct (IH _ _ eq_refl) as (-> & Ha & Hb). cbn [all_chars]. by rewrite Hc, Ha.
    + intros [= <- <-]. by rewrite Hc.
Qed.

Lemma gpuCountRe_match_spec s d :
  gpuCountRe_match s = Some d →
  ∃ ty rest,
    s = "gpu:" +:+ ty +:+ ":" +:+ d +:+ rest ∧
    ty ≠ "" ∧ Py.contains ":" ty = false ∧
    d ≠ "" ∧ all_chars is_digit d = true ∧
    match rest with "" => True | String c _ => is_digit c = false end.
Proof.
  unfold gpuCountRe_match.
  destruct s as [|c1 [|c2 [|c3 [|c4 r]]]]; try done;
    try (by repeat (case_match; try done)).
  destruct (decide (c1 = "g"%char)) as [->|?]; [|by repeat (case_match; simplify_eq)].
  destruct (decide (c2 = "p"%char)) as [->|?]; [|by repeat (case_match; simplify_eq)].
  destruct (decide (c3 = "u"%char)) as [->|?]; [|by repeat (case_match; simplify_eq)].
  destruct (decide (c4 = ":"%char)) as [->|?]; [|by repeat (case_match; simplify_eq)].
  destruct (span (λ c, negb (bool_decide (c = ":"%char))) r) as [ty r1] eqn:E1.
  apply span_spec in E1 as (-> & Hty & _).
  destruct ty as [|t0 ty]; [done|].
  destruct r1 as [|c5 r2]; [done|].
  destruct (decide (c5 = ":"%char)) as [->|?]; [|by repeat (case_match; simplify_eq)].
  destruct (span is_digit r2) as [ds rest] eqn:E2.
  apply span_spec in E2 as (-> & Hds & Hrest).
  destruct ds as [|d0 ds]; [done|]. intros [= <-].
  exists (String t0 ty), rest. split_and!; try done.
  assert (∀ x, all_chars (λ c, negb (bool_decide (c = ":"%char))) x = true →
               Py.contains ":" x = false) as Hno.
  { induction x as [|c x IHx]; [done|]. cbn [all_chars].
    intros [Hc Hx]%andb_true_iff. apply negb_true_iff, bool_decide_eq_false in Hc.
    rewrite contains_cons, prefix_cons, bool_decide_eq_false_2 by congruence.
    by apply IHx. }
  by apply Hno.
Qed.

Lemma gpuCountRe_search_spec s d :
  gpuCountRe_search s = Some d →
  ∃ pre ty rest,
    s = pre +:+ "gpu:" +:+ ty +:+ ":" +:+ d +:+ rest ∧
    ty ≠ "" ∧ Py.contains ":" ty = false ∧
    d ≠ "" ∧ all_chars is_digit d = true ∧
    match rest with "" => True | String c _ => is_digit c = false end.
Proof.
  induction s as [|c s IH].
  - unfold gpuCountRe_search. done.
  - unfold gpuCountRe_search. fold gpuCountRe_search.
    destruct (gpuCountRe_match (String c s)) as [d'|] eqn:E.
    + intros [= ->]. apply gpuCountRe_match_spec in E as (ty & rest & ? & ?).
      by exists "", ty, rest.
    + intros (pre & ty & rest & -> & ?)%IH. by exists (String c pre), ty, rest.
Qed.

Lemma int_of_digits_nonneg d : all_chars is_digit d = true → 0 ≤ int_of_digits d.
Proof.
  unfold int_of_digits.
  assert (∀ l acc, 0 ≤ acc → all_chars is_digit (string_of_list_ascii l) = true →
            0 ≤ foldl (λ acc c, 10 * acc + (Z.of_nat (nat_of_ascii c) - 48)) acc l) as H.
  { induction l as [|c l IH]; intros acc Hacc; [done|]. cbn [string_of_list_ascii all_chars foldl].
    intros [Hc Hl]%andb_true_iff. apply IH; [|done].
    unfold is_digit, between in Hc. apply andb_true_iff in Hc as [Hlo _].
    apply Nat.leb_le in Hlo. lia. }
  intros Hd. apply H; [done|]. by rewrite string_of_list_ascii_of_string.
Qed.

(** X7: the pattern is found exactly in texts that hold
    [gpu:<type>:<digits>] with a non-empty type free of colons; the count
    read from it is never negative. *)
Theorem gpu_count_sound g k :
  gpu_count (Some g) = Ok k →
  0 ≤ k ∧
  ∃ pre ty d rest,
    g = pre +:+ "gpu:" +:+ ty +:+ ":" +:+ d +:+ rest ∧
    ty ≠ "" ∧ Py.contains ":" ty = false ∧
    d ≠ "" ∧ all_chars is_digit d = true ∧ k = int_of_digits d.
Proof.
  unfold gpu_count. destruct (gpuCountRe_search g) as [d|] eqn:E; [|done].
  intros [= <-]. apply gpuCountRe_search_spec in E as (pre & ty & rest & ? & ? & ? & ? & Hd & ?).
  split; [by apply int_of_digits_nonneg|]. by exists pre, ty, d, rest.
Qed.

Lemma gpu_count_sound_witness :
  0 ≤ 4 ∧
  ∃ pre ty d rest,
    "gpu:v100-32gb:4(S:0-1)" = pre +:+ "gpu:" +:+ ty +:+ ":" +:+ d +:+ rest ∧
    ty ≠ "" ∧ Py.contains ":" ty = false ∧
    d ≠ "" ∧ all_chars is_digit d = true ∧ 4 = int_of_digits d.
Proof. apply (gpu_count_sound "gpu:v100-32gb:4(S:0-1)" 4 eq_refl). Defined.

Lemma all_chars_elem p s : all_chars p s = true → ∀ c, c ∈ list_ascii_of_string s → p c = true.
Proof.
  induction s as [|a s IH]; cbn [all_chars list_ascii_of_string].
  - by intros _ c ?%elem_of_nil.
  - intros [Ha Hs]%andb_true_iff c [->|Hc]%elem_of_cons; [done|by apply IH].
Qed.

(** X8: a descriptor that starts with [gpu:<type>:<digits>], the type
    non-empty and free of colons and the digits followed by no further
    digit, has these digits as its count. *)
Theorem gpu_count_of_descriptor ty ds rest :
  ty ≠ "" → all_chars (λ c, negb (bool_decide (c = ":"%char))) ty = true →
  ds ≠ "" → all_chars is_digit ds = true →
  match rest with "" => True | String c _ => is_digit c = false end →
  gpu_count (Some ("gpu:" +:+ ty +:+ ":" +:+ ds +:+ rest)) = Ok (int_of_digits ds).
Proof.
  intros Hty Hnc Hds Hd Hrest. apply gpuCountRe_shape; [done| |done| |done].
  - intros c Hc. eapply all_chars_elem in Hnc; [|done].
    by apply negb_true_iff, bool_decide_eq_false in Hnc.
  - by apply all_chars_elem.
Qed.

Lemma gpu_count_of_descriptor_witness :
  gpu_count (Some ("gpu:" +:+ "v100-16gb" +:+ ":" +:+ "2" +:+ "(S:0-1)")) = Ok 2.
Proof. apply (gpu_count_of_descriptor "v100-16gb" "2" "(S:0-1)"); by vm_compute. Defined.

(** ** The selection loop, further facts *)

Lemma foldl_push2_bucket (l : list string) d s h s' g :
  NoDup l →
  bucket2 (foldl (λ d g, if decide (g = "") then d else push2 d s g h) d l) s' g =
  if decide (s' = s ∧ g ∈ l ∧ g ≠ "")
  then bucket2 d s' g ++ [h] else bucket2 d s' g.
Proof.
  intros Hl. revert d. induction Hl as [|x l Hx Hl IH]; intros d; cbn [foldl].
  - rewrite decide_False; [done|]. by intros (_ & ?%elem_of_nil & _).
  - rewrite IH.
    destruct (decide (s' = s ∧ g = x ∧ x ≠ "")) as [(-> & -> & Hne)|Hother].
    + rewrite (decide_False (P := s = s ∧ x ∈ l ∧ x ≠ "")) by (by intros (_ & ? & _)).
      rewrite (decide_True (P := s = s ∧ x ∈ x :: l ∧ x ≠ ""))
        by (split; [done|split; [left|done]]).
      by rewrite (decide_False (P := x = "")), bucket2_push2, decide_True.
    + assert (bucket2 (if decide (x = "") then d else push2 d s x h) s' g = bucket2 d s' g)
        as ->.
      { destruct (decide (x = "")) as [Hx0|Hx0]; [done|].
        rewrite bucket2_push2, decide_False; [done|].
        intros [= E1 E2]. by apply Hother. }
      apply decide_ext. rewrite elem_of_cons. split.
      * intros (? & ? & ?). split_and!; [done|by right|done].
      * intros (? & [->|?] & ?); [|done]. destruct Hother. done.
Qed.

(** What the loop body does to the three tables. *)
Lemma visit_effect gres_mode fexp b n b' :
  visit gres_mode fexp b n = Ok b' →
  if decide (qualified gres_mode fexp n) then
    ∃ f, node_primary n = Some f ∧
         state2hl b' = push1 (state2hl b) (norm_state (state n)) (name n) ∧
         state2f02hl b' = push2 (state2f02hl b) (norm_state (state n)) f (name n) ∧
         if gres_mode then state2gres2hl b' = state2gres2hl b
         else ∃ gl, getInfoGres n = Ok gl ∧
                state2gres2hl b' =
                  foldl (λ d g, if decide (g = "") then d
                                else push2 d (norm_state (state n)) g (name n))
                        (state2gres2hl b) (elements (list_to_set gl : gset string))
  else b' = b.
Proof.
  unfold visit. destruct (decide (qualified gres_mode fexp n)) as [Hq|Hq];
    unfold qualified in Hq.
  - rewrite Hq. cbn. unfold features_split, node_primary, primary_feature.
    destruct (features n) as [[fs|l]|]; cbn; [|done..].
    destruct (split_nonempty "," fs) as (t0 & rest & ->). cbn.
    case_decide.
    + destruct rest as [|t1 rest]; [done|]. cbn.
      destruct gres_mode; [intros [= <-]; by exists t1|].
      destruct (getInfoGres n) as [gl|]; cbn; [|done].
      intros [= <-]. exists t1. split_and!; [done..|]. by exists gl.
    + cbn. destruct gres_mode; [intros [= <-]; by exists t0|].
      destruct (getInfoGres n) as [gl|]; cbn; [|done].
      intros [= <-]. exists t0. split_and!; [done..|]. by exists gl.
  - destruct (qualifies gres_mode fexp n) as [[|]|e]; cbn; [done| |done].
    by intros [= <-].
Qed.

(** X9: in feature mode a qualifying node that is filed is appended once
    to the bucket of its state and of each of its non-empty GRES types,
    however many of its descriptors have that type; no other GRES bucket
    changes.  In GRES mode the GRES table is left alone. *)
Theorem gres_buckets_after_visit gres_mode fexp b n b' :
  qualified gres_mode fexp n →
  visit gres_mode fexp b n = Ok b' →
  if gres_mode then state2gres2hl b' = state2gres2hl b
  else ∃ gl, getInfoGres n = Ok gl ∧
       ∀ s g, bucket2 (state2gres2hl b') s g =
              if decide (s = norm_state (state n) ∧ g ∈ gl ∧ g ≠ "")
              then bucket2 (state2gres2hl b) s g ++ [name n]
              else bucket2 (state2gres2hl b) s g.
Proof.
  intros Hq Hv%visit_effect. rewrite decide_True in Hv by done.
  destruct Hv as (f & _ & _ & _ & Hg). destruct gres_mode; [done|].
  destruct Hg as (gl & Hgl & ->). exists gl. split; [done|]. intros s g.
  rewrite foldl_push2_bucket by apply NoDup_elements.
  apply decide_ext. by rewrite elem_of_elements, elem_of_list_to_set.
Qed.

Lemma gres_buckets_after_visit_witness :
  ∃ b', visit false ETrue no_buckets workergpu046 = Ok b' ∧
        bucket2 (state2gres2hl b') "IDLE" "v100-16gb" = ["workergpu046"].
Proof.
  eexists. split; [reflexivity|].
  destruct (gres_buckets_after_visit false ETrue no_buckets workergpu046 _ eq_refl eq_refl)
    as (gl & Hgl & H).
  rewrite H. vm_compute in Hgl. injection Hgl as <-.
  rewrite decide_True; [reflexivity|]. split_and!; [reflexivity| |done]. left.
Defined.

Lemma dd_get_push2 d s f h s' :
  dd_get ∅ (push2 d s f h) s' =
  if decide (s' = s) then push1 (dd_get ∅ d s) f h else dd_get ∅ d s'.
Proof.
  unfold push2, dd_get. case_decide as E.
  - subst. by rewrite lookup_insert_eq.
  - by rewrite lookup_insert_ne.
Qed.

(** After the loop, the bucket of a state and a primary feature holds the
    names of the qualifying nodes with that state and that primary
    feature, in the order of the loop. *)
Lemma for_each_f02 gres_mode fexp ns b0 b s f :
  for_each (visit gres_mode fexp) ns b0 = Ok b →
  bucket2 (state2f02hl b) s f =
  bucket2 (state2f02hl b0) s f ++
  (name <$> filter (λ n, qualified gres_mode fexp n ∧ norm_state (state n) = s ∧
                         node_primary n = Some f) ns).
Proof.
  revert b0. induction ns as [|n ns IH]; intros b0; cbn [for_each].
  - intros [= <-]. by rewrite app_nil_r.
  - destruct (visit gres_mode fexp b0 n) as [b1|] eqn:Hv; [|done].
    intros Hrest. change (for_each (visit gres_mode fexp) ns b1 = Ok b) in Hrest.
    rewrite (IH _ Hrest), filter_cons. apply visit_effect in Hv.
    destruct (decide (qualified gres_mode fexp n)) as [Hq|Hq].
    + destruct Hv as (f' & Hf' & _ & -> & _). rewrite bucket2_push2.
      destruct (decide ((s, f) = (norm_state (state n), f'))) as [[= -> ->]|Hne].
      * rewrite decide_True by done. by rewrite <-app_assoc.
      * rewrite decide_False; [done|]. intros (_ & <- & Hp). congruence.
    + subst b1. rewrite decide_False; [done|]. by intros [? _].
Qed.

Lemma for_each_sized_f02 gres_mode fexp ns b0 b s :
  for_each (visit gres_mode fexp) ns b0 = Ok b →
  sized (dd_get ∅ (state2f02hl b) s) =
  (sized (dd_get ∅ (state2f02hl b0) s) +
   length (filter (λ n, qualified gres_mode fexp n ∧ norm_state (state n) = s) ns))%nat.
Proof.
  revert b0. induction ns as [|n ns IH]; intros b0; cbn [for_each].
  - intros [= <-]. cbn. lia.
  - destruct (visit gres_mode fexp b0 n) as [b1|] eqn:Hv; [|done].
    intros Hrest. change (for_each (visit gres_mode fexp) ns b1 = Ok b) in Hrest.
    rewrite (IH _ Hrest), filter_cons. apply visit_effect in Hv.
    destruct (decide (qualified gres_mode fexp n)) as [Hq|Hq].
    + destruct Hv as (f' & Hf' & _ & -> & _). rewrite dd_get_push2.
      destruct (decide (s = norm_state (state n))) as [->|Hne].
      * rewrite decide_True by done. unfold sized. rewrite sized_push1. cbn. lia.
      * rewrite decide_False; [lia|]. intros [_ ?]. by apply Hne.
    + subst b1. rewrite decide_False; [lia|]. by intros [? _].
Qed.

(** X10: when the node table is keyed by the node names and the selection
    loop completes, the bucket of a state and a primary feature holds
    exactly the qualifying nodes with that state and that primary feature,
    each once, and the deduplicated node counts of the primary-feature
    buckets of a state add up to the node count of the state bucket. *)
Theorem feature_buckets_partition_state gres_mode fexp (nodes : gmap string node) b :
  keyed_by_name nodes →
  select gres_mode fexp nodes = Ok b →
  (∀ s f, NoDup (bucket2 (state2f02hl b) s f)) ∧
  (∀ s f n, n ∈ values nodes →
      (name n ∈ bucket2 (state2f02hl b) s f ↔
       qualified gres_mode fexp n ∧ norm_state (state n) = s ∧ node_primary n = Some f)) ∧
  (∀ s, counted (dd_get ∅ (state2f02hl b) s) =
        count (uniq (dd_get inithl (state2hl b) s))).
Proof.
  intros Hkey%names_of_values Hsel. unfold select in Hsel.
  assert (∀ s f, bucket2 (state2f02hl b) s f =
                 name <$> filter (λ n, qualified gres_mode fexp n ∧ norm_state (state n) = s ∧
                                       node_primary n = Some f) (values nodes)) as Hb.
  { intros s f. rewrite (for_each_f02 _ _ _ _ _ s f Hsel).
    unfold bucket2, dd_get. cbn [state2f02hl no_buckets]. by rewrite !lookup_empty. }
  assert (∀ s f, NoDup (bucket2 (state2f02hl b) s f)) as Hnd.
  { intros s f. rewrite Hb. eapply sublist_NoDup; [done|].
    apply fmap_sublist, sublist_filter. }
  split_and!; [done| |].
  - intros s f n Hn. rewrite Hb, list_elem_of_fmap. split.
    + intros (m & Hname & [Hm Hin]%list_elem_of_filter).
      by rewrite (fmap_NoDup_inj name _ n m Hkey Hn Hin Hname).
    + intros H. exists n. split; [done|]. by apply list_elem_of_filter.
  - intros s. unfold counted. rewrite counted_NoDup.
    + fold (sized (dd_get ∅ (state2f02hl b) s)).
      rewrite (for_each_sized_f02 _ _ _ _ _ s Hsel).
      assert (sized (dd_get ∅ (state2f02hl no_buckets) s) = 0%nat) as ->.
      { unfold dd_get. cbn [state2f02hl no_buckets]. by rewrite lookup_empty. }
      unfold count. f_equal. rewrite uniq_NoDup_length.
      * rewrite (for_each_state2hl _ _ _ _ _ s Hsel). unfold dd_get at 1.
        cbn [state2hl no_buckets]. rewrite lookup_empty. cbn [default inithl app].
        by rewrite length_fmap.
      * rewrite (for_each_state2hl _ _ _ _ _ s Hsel). unfold dd_get at 1.
        cbn [state2hl no_buckets]. rewrite lookup_empty. cbn [default inithl app].
        eapply sublist_NoDup; [done|]. apply fmap_sublist, sublist_filter.
    + apply Forall_forall. intros [f hl] Hin%elem_of_map_to_list. cbn.
      specialize (Hnd s f). unfold bucket2 in Hnd. unfold dd_get at 1 in Hnd.
      by rewrite Hin in Hnd.
Qed.

Lemma feature_buckets_partition_state_witness :
  ∃ b, select false ETrue (nodes (snapshot_of [worker5010; worker5073])) = Ok b ∧
       counted (dd_get ∅ (state2f02hl b) "MIXED") = 2 ∧
       count (uniq (dd_get inithl (state2hl b) "MIXED")) = 2.
Proof.
  destruct (select false ETrue (nodes (snapshot_of [worker5010; worker5073])))
    as [b|e] eqn:Hb; [|by vm_compute in Hb].
  exists b.
  destruct (feature_buckets_partition_state false ETrue
              (nodes (snapshot_of [worker5010; worker5073])) b) as (_ & _ & Hc);
    [by apply (bool_decide_unpack _); vm_compute|exact Hb|].
  rewrite Hc. vm_compute in Hb. injection Hb as <-. split_and!; [done|by vm_compute..].
Defined.

Lemma qualifies_gres_tokens fexp n v :
  qualifies true fexp n = Ok v → ∃ gl, getInfoGres n = Ok gl.
Proof.
  unfold qualifies, getInfo. destruct (getInfoGres n) as [gl|]; [by eexists|done].
Qed.

Lemma visit_returns_iff gres_mode fexp b n :
  (∃ b', visit gres_mode fexp b n = Ok b') ↔ fileable gres_mode fexp n.
Proof.
  split.
  - intros [b' Hv]. split.
    + unfold visit in Hv. destruct (qualifies gres_mode fexp n); [by eexists|done].
    + intros Hq. apply visit_effect in Hv. rewrite decide_True in Hv by done.
      destruct Hv as (f & Hf & _ & _ & Hg). split; [by eexists|].
      destruct gres_mode; [by eapply qualifies_gres_tokens|].
      destruct Hg as (gl & ? & _). by eexists.
  - intros [[v Hv] Hq]. unfold visit. rewrite Hv. cbn.
    destruct v; [|by eexists].
    destruct (Hq Hv) as [[f Hf] [gl Hgl]].
    unfold node_primary, primary_feature in Hf. unfold features_split.
    destruct (features n) as [[fs|l]|]; [|done..]. cbn.
    destruct (split_nonempty "," fs) as (t0 & rest & E). rewrite E in *. cbn.
    case_decide.
    + destruct rest as [|t1 rest]; [done|]. cbn. rewrite Hgl. cbn.
      destruct gres_mode; by eexists.
    + cbn. rewrite Hgl. cbn. destruct gres_mode; by eexists.
Qed.

Lemma for_each_returns_iff {A S} (f : S → A → result S) l :
  (∀ s s' x, (∃ r, f s x = Ok r) → ∃ r, f s' x = Ok r) →
  ∀ s, (∃ r, for_each f l s = Ok r) ↔ ∀ x, x ∈ l → ∃ r, f s x = Ok r.
Proof.
  intros Hf. induction l as [|x l IH]; intros s; cbn [for_each].
  - split; [by intros _ x ?%elem_of_nil|by eexists].
  - split.
    + intros [r Hr]. destruct (f s x) as [s1|] eqn:E; [|done].
      intros y [->|Hy]%elem_of_cons; [by eexists|].
      apply (Hf s1); apply (proj1 (IH s1)); [by eexists|done].
    + intros H. destruct (H x) as [s1 E]; [left|]. rewrite E. cbn.
      apply IH. intros y Hy. apply (Hf s). apply H. by right.
Qed.

(** X11: the selection loop completes exactly when, for every node of
    the snapshot, the test can be evaluated and, if the node qualifies,
    its features field is a string with a primary feature and its GRES
    tokens can be read; otherwise the run aborts in the loop. *)
Theorem select_returns_iff gres_mode fexp (nodes : gmap string node) :
  (∃ b, select gres_mode fexp nodes = Ok b) ↔
  ∀ n, n ∈ values nodes → fileable gres_mode fexp n.
Proof.
  unfold select. rewrite for_each_returns_iff.
  - split; intros H n Hn; by apply (visit_returns_iff _ _ no_buckets), H.
  - intros s s' x H. by apply visit_returns_iff, (visit_returns_iff _ _ s).
Qed.

Lemma select_returns_iff_witness :
  ∃ b, select false (EName "gpu") (nodes (snapshot_of [worker5010])) = Ok b.
Proof.
  apply select_returns_iff. intros n Hn. vm_compute in Hn.
  apply list_elem_of_singleton in Hn as ->.
  split; [by eexists|]. intros _. split; by eexists.
Defined.

Lemma well_formed_fileable gres_mode fexp n : well_formed n → fileable gres_mode fexp n.
Proof.
  intros [Hp Hg].
  assert (∃ gl, getInfoGres n = Ok gl) as [gl Hgl].
  { rewrite getInfoGres_fragments.
    destruct (mapM_result (λ g, index (Py.splitn ":" 2 g) 1) IndexError (gres_fragments n))
      as [H _].
    - intros g _. destruct (has_colon g) eqn:E; [left|right]; by apply second_field.
    - destruct H as (ys & ? & _); [|by eexists].
      eapply Forall_impl; [done|]. intros g Hc. by apply second_field. }
  split; [|intros _; split; [done|by eexists]].
  destruct gres_mode.
  - eexists. apply qualifies_holds. unfold getInfo. done.
  - eexists. by apply qualifies_holds.
Qed.

(** X12: on a snapshot whose nodes all have a feature string with a
    primary feature and GRES fragments that hold a colon, the selection
    loop completes, in either mode and for every expression of the boolean
    fragment (names, constants, [not], [and], [or]). *)
Theorem select_total_on_well_formed gres_mode fexp (nodes : gmap string node) :
  (∀ n, n ∈ values nodes → well_formed n) →
  ∃ b, select gres_mode fexp nodes = Ok b.
Proof.
  intros H. unfold select.
  apply (proj2 (for_each_returns_iff (visit gres_mode fexp) (values nodes)
                  (λ s s' x Hx, proj2 (visit_returns_iff gres_mode fexp s' x)
                                  (proj1 (visit_returns_iff gres_mode fexp s x) Hx))
                  no_buckets)).
  intros n Hn. by apply (visit_returns_iff _ _ no_buckets), well_formed_fileable, H.
Qed.

Lemma select_total_on_well_formed_witness :
  ∃ b, select false (EName "gpu") (nodes (snapshot_of [workergpu046; worker5010])) = Ok b.
Proof.
  apply select_total_on_well_formed. intros n Hn. vm_compute in Hn.
  repeat (apply elem_of_cons in Hn as [->|Hn];
          [split; [by eexists|repeat constructor]|]).
  by apply elem_of_nil in Hn.
Defined.

(** ** Totals of a host list, further facts *)

Lemma for_break_cons p y l x :
  for_break p (y :: l) x = if p y then Some y else for_break p l (Some y).
Proof. done. Qed.

(** X13: after [for x in l: if p(x): break] the variable is the first
    element that satisfies [p]; without such an element it is the last
    element of the list, and it keeps its old binding when the list is
    empty. *)
Theorem for_break_result (p : string → bool) l x :
  for_break p l x =
  match list_find (λ y, p y = true) l with
  | Some (_, y) => Some y
  | None => match last l with Some y => Some y | None => x end
  end.
Proof.
  revert x. induction l as [|y l IH]; intros x; [done|].
  rewrite for_break_cons. cbn [list_find]. destruct (p y) eqn:Hy.
  - by rewrite decide_True.
  - rewrite decide_False by congruence. rewrite IH.
    destruct (list_find (λ y, p y = true) l) as [[i z]|]; [done|]. cbn.
    destruct l as [|z l]; [done|]. rewrite last_cons_cons.
    destruct (last (z :: l)) eqn:E; [done|]. by apply last_None in E.
Qed.

Lemma gpu_count_nonneg v k : gpu_count v = Ok k → 0 ≤ k.
Proof.
  unfold gpu_count. destruct v as [g|]; [|done].
  destruct (gpuCountRe_search g) as [d|] eqn:E; [|done]. intros [= <-].
  apply gpuCountRe_search_spec in E as (? & ? & ? & _ & _ & _ & _ & Hd & _).
  by apply int_of_digits_nonneg.
Qed.

(** Everything a returning loop body has done. *)
Lemma summarize_host_inv snap cb t h log t' :
  summarize_host snap cb t h = (log, Ok t') →
  ∃ l1 node,
    count_jobs snap cb h (t_cb2jc t) = (l1, Ok (t_cb2jc t')) ∧
    nodes snap !! h = Some node ∧
    t_cpus t' = t_cpus t + cpus node ∧
    t_cpus_allocated t' = t_cpus_allocated t + alloc_cpus node ∧
    ((signals_gpu node = Ok false ∧ log = l1 ∧
      t_gpus t' = t_gpus t ∧ t_gpus_allocated t' = t_gpus_allocated t ∧
      v_gres t' = v_gres t ∧ v_gres_used t' = v_gres_used t) ∨
     (signals_gpu node = Ok true ∧
      v_gres t' = for_break starts_gpu (gres node) (v_gres t) ∧
      v_gres_used t' = for_break starts_gpu (gres_used node) (v_gres_used t) ∧
      ∃ k, gpu_count (v_gres t') = Ok k ∧ t_gpus t' = t_gpus t + k ∧
           ((∃ ka, gpu_count (v_gres_used t') = Ok ka ∧ log = l1 ∧
                   t_gpus_allocated t' = t_gpus_allocated t + ka) ∨
            (∃ e u, gpu_count (v_gres_used t') = Raise e ∧ v_gres_used t' = Some u ∧
                    log = l1 ++ [Stderr (Skipping h u (gres node) (gres_used node) e)] ∧
                    t_gpus_allocated t' = t_gpus_allocated t)))).
Proof.
  unfold summarize_host, node_of.
  intros (l1 & d & l2 & Hc & H & ->)%bind_ok_inv.
  destruct (nodes snap !! h) as [node|]; [|done].
  apply bind_ok_inv in H as (l3 & node' & l4 & [= <- <-] & H & ->).
  apply bind_ok_inv in H as (l5 & sig & l6 & Hsig & H & ->).
  unfold lift in Hsig. injection Hsig as <- Hsig.
  destruct sig.
  - apply bind_ok_inv in H as (l7 & k & l8 & Hk & H & ->).
    unfold lift in Hk. injection Hk as <- Hk.
    apply bind_ok_inv in H as (l9 & ga & l10 & Hga & H & ->).
    injection H as <- <-. cbn [t_cpus t_cpus_allocated t_gpus t_gpus_allocated t_cb2jc
      v_gres v_gres_used]. exists l1, node. split_and!; [done..|]. right.
    split_and!; [done..|]. exists k. split_and!; [done..|].
    unfold try_except, lift in Hga.
    destruct (gpu_count (for_break starts_gpu (gres_used node) (v_gres_used t)))
      as [ka|e] eqn:Eka; cbn in Hga.
    + injection Hga as <- <-. left. exists ka. by rewrite !app_nil_r.
    + destruct (for_break starts_gpu (gres_used node) (v_gres_used t)) as [u|] eqn:Eu;
        cbn in Hga; [|done].
      injection Hga as <- <-. right. exists e, u. by rewrite !app_nil_r.
  - injection H as <- <-. exists l1, node. cbn. split_and!; [done..|]. left.
    by rewrite !app_nil_r.
Qed.

(** X14: a host that is not in the node table aborts the totals with
    KeyError; a node whose features do not signal a GPU adds its CPU
    capacity and allocation and leaves the GPU totals and the two loop
    variables as they were. *)
Theorem summarize_host_without_gpu snap cb t h :
  (nodes snap !! h = None → (summarize_host snap cb t h).2 = Raise KeyError) ∧
  (∀ node, nodes snap !! h = Some node → signals_gpu node = Ok false →
     ∃ log t', summarize_host snap cb t h = (log, Ok t') ∧
       t_cpus t' = t_cpus t + cpus node ∧
       t_cpus_allocated t' = t_cpus_allocated t + alloc_cpus node ∧
       t_gpus t' = t_gpus t ∧ t_gpus_allocated t' = t_gpus_allocated t ∧
       v_gres t' = v_gres t ∧ v_gres_used t' = v_gres_used t).
Proof.
  destruct (count_jobs_ok snap cb h (t_cb2jc t)) as (l1 & d & Hc).
  unfold summarize_host, node_of. rewrite Hc. split.
  - by intros ->.
  - intros node -> Hs. cbn. rewrite Hs. cbn. by eexists _, _.
Qed.

Lemma summarize_host_without_gpu_witness :
  ∃ log t', summarize_host sample None tally0 "worker5010" = (log, Ok t') ∧
    t_cpus t' = 0 + 128 ∧ t_cpus_allocated t' = 0 + 48 ∧
    t_gpus t' = 0 ∧ t_gpus_allocated t' = 0 ∧ v_gres t' = None ∧ v_gres_used t' = None.
Proof.
  apply (proj2 (summarize_host_without_gpu sample None tally0 "worker5010") worker5010);
    reflexivity.
Defined.

(** X15: a node that signals a GPU and has an empty GRES list is counted
    with the descriptor left in the loop variable by an earlier host of the
    same list; when no earlier host bound it, the totals abort with
    UnboundLocalError. *)
Theorem empty_gres_uses_previous_descriptor snap cb t h node :
  nodes snap !! h = Some node → signals_gpu node = Ok true → gres node = [] →
  (v_gres t = None → (summarize_host snap cb t h).2 = Raise UnboundLocalError) ∧
  (∀ log t', summarize_host snap cb t h = (log, Ok t') →
     ∃ g k, v_gres t = Some g ∧ gpu_count (Some g) = Ok k ∧ t_gpus t' = t_gpus t + k).
Proof.
  intros Hn Hs Hg. split.
  - intros Hv. destruct (count_jobs_ok snap cb h (t_cb2jc t)) as (l1 & d & Hc).
    unfold summarize_host, node_of. rewrite Hc, Hn. cbn. rewrite Hs. cbn.
    rewrite Hg. change (for_break starts_gpu [] (v_gres t)) with (v_gres t).
    by rewrite Hv.
  - intros log t' (l1 & node' & _ & Hn' & _ & _ & H)%summarize_host_inv.
    rewrite Hn in Hn'. injection Hn' as <-.
    destruct H as [(Hs' & _)|(_ & Hv & _ & k & Hk & Ht & _)]; [congruence|].
    rewrite Hg in Hv. change (for_break starts_gpu [] (v_gres t)) with (v_gres t) in Hv.
    rewrite Hv in Hk.
    destruct (v_gres t) as [g|]; [|done]. by exists g, k.
Qed.

Lemma empty_gres_uses_previous_descriptor_witness :
  (summarize_host (snapshot_of [workerhm01]) None tally0 "workerhm01").2
  = Raise UnboundLocalError.
Proof.
  apply (proj1 (empty_gres_uses_previous_descriptor (snapshot_of [workerhm01]) None tally0
                  "workerhm01" workerhm01 eq_refl eq_refl eq_refl)).
  reflexivity.
Defined.

(** X16: the GPU total and the allocated GPU count never decrease along
    the hosts of a list, so the totals of a list are never negative. *)
Theorem gpu_totals_nonnegative snap hl cb log t :
  summarize_hl snap hl cb = (log, Ok t) →
  0 ≤ t_gpus t ∧ 0 ≤ t_gpus_allocated t.
Proof.
  unfold summarize_hl, get_list.
  assert (∀ t0 log t, io_for_each (summarize_host snap cb) hl t0 = (log, Ok t) →
            t_gpus t0 ≤ t_gpus t ∧ t_gpus_allocated t0 ≤ t_gpus_allocated t) as H.
  { clear. induction hl as [|h hl IH]; intros t0 log t; cbn [io_for_each].
    - intros [= _ <-]. lia.
    - intros (l1 & t1 & l2 & H1 & H2 & _)%bind_ok_inv.
      apply IH in H2 as [? ?].
      apply summarize_host_inv in H1 as (? & node & _ & _ & _ & _ & H1).
      destruct H1 as [(_ & _ & E1 & E2 & _)|(_ & _ & _ & k & Hk%gpu_count_nonneg & E1 & Ha)];
        [lia|].
      destruct Ha as [(ka & Hka%gpu_count_nonneg & _ & E2)|(? & ? & _ & _ & _ & E2)]; lia. }
  intros Hs. apply H in Hs. cbn in Hs. lia.
Qed.

Lemma gpu_totals_nonnegative_witness :
  0 ≤ 4 ∧ 0 ≤ 4.
Proof.
  apply (gpu_totals_nonnegative sample ["workergpu055"] None []
           {| t_cpus := 40; t_cpus_allocated := 22; t_gpus := 4; t_gpus_allocated := 4;
              t_cb2jc := ∅; v_gres := Some "gpu:v100-32gb:4(S:0-1)";
              v_gres_used := Some "gpu:v100-32gb:4(IDX:0-3)" |}).
  reflexivity.
Defined.

(** ** The breakdown by partition or user *)

Lemma tallied_perm_items (l k : list (string * Z)) :
  l ≡ₚ k → foldr (λ item acc, item.2 + acc) 0 l = foldr (λ item acc, item.2 + acc) 0 k.
Proof. induction 1; cbn; lia. Qed.

Lemma tallied_increment (d : gmap string Z) k :
  tallied (<[k := default 0 (d !! k) + 1]> d) = tallied d + 1.
Proof.
  unfold tallied. destruct (d !! k) as [v|] eqn:E; cbn [default].
  - rewrite <-insert_delete_eq.
    rewrite (tallied_perm_items _ _ (map_to_list_insert _ k (v + 1) (lookup_delete_eq d k))).
    rewrite <-(tallied_perm_items _ _ (map_to_list_delete d k v E)). cbn. lia.
  - rewrite (tallied_perm_items _ _ (map_to_list_insert _ k (0 + 1) E)). cbn. lia.
Qed.

Lemma count_jobs_tallied snap cb h d log d' :
  count_jobs snap cb h d = (log, Ok d') →
  tallied d' = tallied d +
    match cb with Some _ => Z.of_nat (length (dd_get [] (h2jj snap) h)) | None => 0 end.
Proof.
  unfold count_jobs. destruct cb as [c|]; [|intros [= _ <-]; lia].
  generalize (dd_get [] (h2jj snap) h). intros js. revert d log.
  induction js as [|j js IH]; intros d log; cbn [io_for_each].
  - intros [= _ <-]. cbn. lia.
  - intros (l1 & d1 & l2 & H1 & H2 & _)%bind_ok_inv.
    apply bind_ok_inv in H1 as (l3 & k & l4 & _ & [= _ <-] & _).
    apply IH in H2. rewrite H2, tallied_increment. cbn [length]. lia.
Qed.

(** X17: when a breakdown is asked for, the job counts of a host list add
    up to the number of running-job occurrences on its hosts, whether the
    users are known or not; without a breakdown no count is kept. *)
Theorem job_counts_add_up snap hl cb log t :
  summarize_hl snap hl cb = (log, Ok t) →
  match cb with
  | Some _ => tallied (t_cb2jc t) = job_occurrences snap hl
  | None => t_cb2jc t = ∅
  end.
Proof.
  unfold summarize_hl, get_list.
  assert (∀ t0 log t, io_for_each (summarize_host snap cb) hl t0 = (log, Ok t) →
            match cb with
            | Some _ => tallied (t_cb2jc t) = tallied (t_cb2jc t0) + job_occurrences snap hl
            | None => t_cb2jc t = t_cb2jc t0
            end) as H.
  { clear. induction hl as [|h hl IH]; intros t0 log t; cbn [io_for_each].
    - intros [= _ <-]. destruct cb; [|done]. unfold job_occurrences. cbn. lia.
    - intros (l1 & t1 & l2 & H1 & H2 & _)%bind_ok_inv.
      apply IH in H2. apply summarize_host_inv in H1 as (l & node & Hc & _).
      destruct cb as [c|].
      + apply count_jobs_tallied in Hc. rewrite H2, Hc.
        unfold job_occurrences. cbn. fold (Zsum (λ h, Z.of_nat (length (dd_get [] (h2jj snap) h))) hl).
        lia.
      + rewrite H2. by injection Hc as _ <-. }
  intros Hs%H. destruct cb; [|done]. rewrite Hs. done.
Qed.

Lemma job_counts_add_up_witness :
  ∃ log t, summarize_hl busy ["worker5010"] (Some ByUser) = (log, Ok t) ∧
           tallied (t_cb2jc t) = job_occurrences busy ["worker5010"].
Proof.
  destruct (summarize_hl busy ["worker5010"] (Some ByUser)) as [log [t|e]] eqn:E;
    [|by vm_compute in E].
  exists log, t. split; [done|].
  apply (job_counts_add_up busy ["worker5010"] (Some ByUser) log t E).
Defined.

Lemma pair_ge_total : Total pair_ge.
Proof.
  intros [c1 k1] [c2 k2]. unfold pair_ge. cbn.
  destruct (Z.lt_trichotomy c1 c2) as [?|[->|?]]; [by right; left| |by left; left].
  destruct (total String.le k1 k2); [right|left]; by right.
Qed.

Lemma pair_ge_trans : Transitive pair_ge.
Proof.
  intros [c1 k1] [c2 k2] [c3 k3]. unfold pair_ge. cbn.
  intros [?|[-> H12]] [?|[-> H23]]; [left; lia|by left|by left|].
  right. split; [done|]. by etrans.
Qed.

(** X18: the job summary of a line lists every key of the breakdown once,
    with its count, by decreasing count and, among equal counts, by
    decreasing key. *)
Theorem job_summary_sorted (cb2jc : gmap string Z) :
  job_summary_count_by cb2jc ≡ₚ map_to_list cb2jc ∧
  NoDup (job_summary_count_by cb2jc).*1 ∧
  StronglySorted (λ x y, y.2 < x.2 ∨ (y.2 = x.2 ∧ String.le y.1 x.1))
                 (job_summary_count_by cb2jc).
Proof.
  unfold job_summary_count_by.
  assert ((λ p : Z * string, (p.2, p.1)) <$>
            merge_sort pair_ge ((λ p : string * Z, (p.2, p.1)) <$> map_to_list cb2jc)
          ≡ₚ map_to_list cb2jc) as Hperm.
  { rewrite merge_sort_Permutation, <-list_fmap_compose.
    rewrite (list_fmap_ext _ id (map_to_list cb2jc)); [by rewrite list_fmap_id|].
    by intros i [k c] _. }
  split_and!; [done| |].
  - rewrite Hperm. apply NoDup_fst_map_to_list.
  - apply (StronglySorted_fmap _ pair_ge).
    + by intros [c1 k1] [c2 k2] H.
    + apply (@StronglySorted_merge_sort _ pair_ge _ pair_ge_trans pair_ge_total).
Qed.

(** ** The lines of the report, further facts *)

Lemma report_events a snap b ev :
  ev ∈ (report a snap b).1 →
  (∃ tot item, item ∈ sorted_items (state2hl b) ∧
               ev ∈ (report_state a snap b tot item).1) ∨
  (∃ n c ca g, ev = Stdout (TotalLine n c ca g)) ∨
  (∃ ps, ev = Stdout (PrefixLine ps)).
Proof.
  unfold report.
  intros [H|(tot & _ & H)]%elem_of_bind_log.
  { left. apply io_for_each_elem in H as (tot & item & ? & ?). eauto. }
  apply elem_of_bind_log in H as [H|(? & _ & H)].
  { right. left. apply list_elem_of_singleton in H. eauto 10. }
  apply elem_of_bind_log in H as [H|(? & _ & H)]; [|by apply elem_of_nil in H].
  case_decide; [by apply elem_of_nil in H|].
  right. right. apply list_elem_of_singleton in H. eauto.
Qed.

(** The feature and GRES lines printed under one state. *)
Lemma report_state_sub_lines a snap b tot item ev :
  ev ∈ (report_state a snap b tot item).1 →
  match ev with
  | Stdout (FeatureLine l) =>
      ∃ log t fhl,
        summarize_hl snap (uniq item.2) (arg_summarize a) = (log, Ok t) ∧
        dd_get ∅ (state2f02hl b) item.1 !! label l = Some fhl ∧
        label l ≠ "gpu" ∧
        n_nodes l = count (uniq fhl) ∧
        (arg_verbose a = false → n_nodes l ≠ count (uniq item.2)) ∧
        gpu_info l = gpu_info_of (t_gpus t) (t_gpus_allocated t)
  | Stdout (GresLine l) =>
      ∃ ghl,
        dd_get ∅ (state2gres2hl b) item.1 !! label l = Some ghl ∧
        n_nodes l = count (uniq ghl) ∧
        (arg_verbose a = false → n_nodes l ≠ count (uniq item.2))
  | _ => True
  end.
Proof.
  unfold report_state.
  intros [H|(t & Ht%ok_snd & H)]%elem_of_bind_log.
  { apply summarize_hl_log in H. by destruct ev. }
  apply elem_of_bind_log in H as [H|(? & _ & H)].
  { by apply list_elem_of_singleton in H as ->. }
  apply elem_of_bind_log in H as [H|(? & _ & H)].
  { apply io_for_each_elem in H as (u & [f fhl] & Hin%sorted_items_elem & H).
    unfold report_feature in H. cbn [fst snd] in H.
    case_decide as Hgpu; [by apply elem_of_nil in H|].
    destruct (arg_verbose a) eqn:Hverb; cbn [negb andb] in H.
    - apply elem_of_bind_log in H as [H|(t' & _ & H)].
      + apply summarize_hl_log in H. by destruct ev.
      + apply list_elem_of_singleton in H as ->. by eexists _, t, fhl.
    - case_bool_decide as Hc; [by apply elem_of_nil in H|].
      apply elem_of_bind_log in H as [H|(t' & _ & H)].
      + apply summarize_hl_log in H. by destruct ev.
      + apply list_elem_of_singleton in H as ->. eexists _, t, fhl.
        by split_and!. }
  apply elem_of_bind_log in H as [H|(? & _ & H)]; [|by apply elem_of_nil in H].
  apply io_for_each_elem in H as (u & [g ghl] & Hin%sorted_items_elem & H).
  unfold report_gres in H. cbn [fst snd] in H.
  destruct (arg_verbose a) eqn:Hverb; cbn [negb andb] in H.
  - apply elem_of_bind_log in H as [H|(t' & _ & H)].
    + apply summarize_hl_log in H. by destruct ev.
    + apply list_elem_of_singleton in H as ->. by exists ghl.
  - case_bool_decide as Hc; [by apply elem_of_nil in H|].
    apply elem_of_bind_log in H as [H|(t' & _ & H)].
    + apply summarize_hl_log in H. by destruct ev.
    + apply list_elem_of_singleton in H as ->. exists ghl.
      by split_and!.
Qed.

(** X19: the report never prints a line for the primary feature [gpu];
    and, unless verbose output is asked for, every feature or GRES line it
    prints belongs to a state whose node count differs from the line's. *)
Theorem redundant_lines_suppressed a snap b l :
  (Stdout (FeatureLine l) ∈ (report a snap b).1 →
     label l ≠ "gpu" ∧
     ∃ s hl fhl, state2hl b !! s = Some hl ∧
       dd_get ∅ (state2f02hl b) s !! label l = Some fhl ∧
       n_nodes l = count (uniq fhl) ∧
       (arg_verbose a = false → n_nodes l ≠ count (uniq hl))) ∧
  (Stdout (GresLine l) ∈ (report a snap b).1 →
     ∃ s hl ghl, state2hl b !! s = Some hl ∧
       dd_get ∅ (state2gres2hl b) s !! label l = Some ghl ∧
       n_nodes l = count (uniq ghl) ∧
       (arg_verbose a = false → n_nodes l ≠ count (uniq hl))).
Proof.
  split; intros H; apply report_events in H as [(tot & [s hl] & Hi & H)|[H|H]];
    try (destruct H as (? & ? & ? & ? & ?); done); try (destruct H as (? & ?); done).
  - apply sorted_items_elem in Hi.
    apply report_state_sub_lines in H as (log & t & fhl & _ & ? & ? & ? & ? & _).
    split; [done|]. by exists s, hl, fhl.
  - apply sorted_items_elem in Hi.
    apply report_state_sub_lines in H as (ghl & ? & ? & ?). by exists s, hl, ghl.
Qed.

(** X20: the GPU pair shown on a feature line is the one of the state
    line above it, computed over the whole state bucket, not over the
    bucket of the feature. *)
Theorem feature_line_shows_state_gpus a snap b l :
  Stdout (FeatureLine l) ∈ (report a snap b).1 →
  ∃ s hl log t,
    state2hl b !! s = Some hl ∧
    is_Some (dd_get ∅ (state2f02hl b) s !! label l) ∧
    summarize_hl snap (uniq hl) (arg_summarize a) = (log, Ok t) ∧
    gpu_info l = gpu_info_of (t_gpus t) (t_gpus_allocated t).
Proof.
  intros H. apply report_events in H as [(tot & [s hl] & Hi & H)|[H|H]];
    try (destruct H as (? & ? & ? & ? & ?); done); try (destruct H as (? & ?); done).
  apply sorted_items_elem in Hi.
  apply report_state_sub_lines in H as (log & t & fhl & ? & ? & _ & _ & _ & ?).
  exists s, hl, log, t. split_and!; [done|by eexists|done..].
Qed.

Lemma redundant_lines_suppressed_witness :
  ∃ l, Stdout (FeatureLine l) ∈ (report plain_args mixed_pair mixed_buckets).1 ∧
       label l = "rome" ∧ n_nodes l = 1 ∧ label l ≠ "gpu".
Proof.
  eexists. split; [|split; [|split]].
  - apply list_elem_of_lookup_2 with (i := 1%nat). vm_compute. reflexivity.
  - reflexivity.
  - reflexivity.
  - apply (redundant_lines_suppressed plain_args mixed_pair mixed_buckets).
    apply list_elem_of_lookup_2 with (i := 1%nat). vm_compute. reflexivity.
Defined.

Lemma feature_line_shows_state_gpus_witness :
  ∃ l, Stdout (FeatureLine l) ∈ (report plain_args mixed_pair mixed_buckets).1 ∧
       label l = "rome" ∧ gpu_info l = Some (4, 4) ∧
       ∃ s hl log t,
         state2hl mixed_buckets !! s = Some hl ∧
         is_Some (dd_get ∅ (state2f02hl mixed_buckets) s !! label l) ∧
         summarize_hl mixed_pair (uniq hl) (arg_summarize plain_args) = (log, Ok t) ∧
         gpu_info l = gpu_info_of (t_gpus t) (t_gpus_allocated t).
Proof.
  eexists. split; [|split; [|split]].
  - apply list_elem_of_lookup_2 with (i := 1%nat). vm_compute. reflexivity.
  - reflexivity.
  - reflexivity.
  - apply (feature_line_shows_state_gpus plain_args mixed_pair mixed_buckets).
    apply list_elem_of_lookup_2 with (i := 1%nat). vm_compute. reflexivity.
Defined.

Lemma report_state_inv a snap b tot item log tot' :
  report_state a snap b tot item = (log, Ok tot') →
  ∃ l t,
    summarize_hl snap (uniq item.2) (arg_summarize a) = (l, Ok t) ∧
    tot' = {| total_nodes := total_nodes tot + count (uniq item.2);
              total_cpus := total_cpus tot + t_cpus t;
              total_cpus_allocated := total_cpus_allocated tot + t_cpus_allocated t;
              total_gpus := total_gpus tot + t_gpus t;
              total_gpus_allocated := total_gpus_allocated tot + t_gpus_allocated t;
              prefix2c := <[item.1 := dd_get 0 (prefix2c tot) item.1 + count (uniq item.2)]>
                            (prefix2c tot);
              prefix2cpus := <[item.1 := dd_get 0 (prefix2cpus tot) item.1 + t_cpus t]>
                               (prefix2cpus tot) |}.
Proof.
  unfold report_state.
  intros (l1 & t & l2 & Hs & H & _)%bind_ok_inv.
  apply bind_ok_inv in H as (l3 & ? & l4 & _ & H & _).
  apply bind_ok_inv in H as (l5 & ? & l6 & _ & H & _).
  apply bind_ok_inv in H as (l7 & ? & l8 & _ & H & _).
  injection H as _ <-. by exists l1, t.
Qed.

Lemma report_loop_prefix a snap b items tot log tot' :
  io_for_each (report_state a snap b) items tot = (log, Ok tot') →
  NoDup items.*1 →
  (∀ s, s ∈ items.*1 → prefix2c tot !! s = None) →
  (∀ s hl, (s, hl) ∈ items → prefix2c tot' !! s = Some (count (uniq hl))) ∧
  (∀ s, s ∉ items.*1 → prefix2c tot' !! s = prefix2c tot !! s).
Proof.
  revert tot log. induction items as [|[s0 hl0] items IH]; intros tot log; cbn [io_for_each].
  - intros [= _ <-] _ _. split; [by intros ?? ?%elem_of_nil|done].
  - intros (l1 & tot1 & l2 & H1 & H2 & _)%bind_ok_inv.
    rewrite fmap_cons, NoDup_cons. cbn [fst]. intros [Hs0 Hnd] Hfresh.
    apply report_state_inv in H1 as (l & t & _ & Htot1). cbn [fst snd] in Htot1.
    assert (prefix2c tot1 = <[s0 := count (uniq hl0)]> (prefix2c tot)) as Hp.
    { rewrite Htot1. cbn [prefix2c]. unfold dd_get. rewrite Hfresh by left. cbn. done. }
    destruct (IH tot1 l2 H2 Hnd) as [IH1 IH2].
    { intros s Hs. rewrite Hp, lookup_insert_ne; [apply Hfresh; by right|].
      intros ->. done. }
    split.
    + intros s hl [[= -> ->]|Hin]%elem_of_cons; [|by apply IH1].
      rewrite IH2 by done. by rewrite Hp, lookup_insert_eq.
    + intros s Hs. apply not_elem_of_cons in Hs as [Hne Hs].
      rewrite IH2 by done. by rewrite Hp, lookup_insert_ne.
Qed.

Lemma report_loop_prefix2cpus a snap b items tot log tot' :
  io_for_each (report_state a snap b) items tot = (log, Ok tot') →
  NoDup items.*1 →
  (∀ s, s ∈ items.*1 → prefix2cpus tot !! s = None) →
  (∀ s hl, (s, hl) ∈ items →
     prefix2cpus tot' !! s = Some (Zsum (cpus_of snap) (elements (members hl)))) ∧
  (∀ s, s ∉ items.*1 → prefix2cpus tot' !! s = prefix2cpus tot !! s).
Proof.
  revert tot log. induction items as [|[s0 hl0] items IH]; intros tot log; cbn [io_for_each].
  - intros [= _ <-] _ _. split; [by intros ?? ?%elem_of_nil|done].
  - intros (l1 & tot1 & l2 & H1 & H2 & _)%bind_ok_inv.
    rewrite fmap_cons, NoDup_cons. cbn [fst]. intros [Hs0 Hnd] Hfresh.
    apply report_state_inv in H1 as (l & t & Ht & Htot1). cbn [fst snd] in Htot1, Ht.
    apply summarize_uniq_cpus in Ht as [Hcpus _].
    assert (prefix2cpus tot1
            = <[s0 := Zsum (cpus_of snap) (elements (members hl0))]> (prefix2cpus tot)) as Hp.
    { rewrite Htot1. cbn [prefix2cpus]. unfold dd_get. rewrite Hfresh by left. cbn.
      by rewrite Hcpus. }
    destruct (IH tot1 l2 H2 Hnd) as [IH1 IH2].
    { intros s Hs. rewrite Hp, lookup_insert_ne; [apply Hfresh; by right|].
      intros ->. done. }
    split.
    + intros s hl [[= -> ->]|Hin]%elem_of_cons; [|by apply IH1].
      rewrite IH2 by done. by rewrite Hp, lookup_insert_eq.
    + intros s Hs. apply not_elem_of_cons in Hs as [Hne Hs].
      rewrite IH2 by done. by rewrite Hp, lookup_insert_ne.
Qed.

(** The two per-state tables of a completed report, and what it printed
    after the lines of the buckets. *)
Lemma report_tables a snap b log tot :
  report a snap b = (log, Ok tot) →
  (∀ s, prefix2c tot !! s = (λ hl, count (uniq hl)) <$> state2hl b !! s) ∧
  (∀ s hl, state2hl b !! s = Some hl →
     prefix2cpus tot !! s = Some (Zsum (cpus_of snap) (elements (members hl)))) ∧
  ∃ body,
    log = body ++
      [Stdout (TotalLine (total_nodes tot) (total_cpus tot) (total_cpus_allocated tot)
                 (gpu_info_of (total_gpus tot) (total_gpus_allocated tot)))] ++
      (if decide (prefix2c tot = ∅) then []
       else [Stdout (PrefixLine ((λ pc, (pc.1, pc.2, dd_get 0 (prefix2cpus tot) pc.1)) <$>
                                 sorted_items (prefix2c tot)))]).
Proof.
  unfold report.
  intros (l1 & tot1 & l2 & H1 & H & ->)%bind_ok_inv.
  apply bind_ok_inv in H as (l3 & u1 & l4 & Hp & H & ->).
  apply bind_ok_inv in H as (l5 & u2 & l6 & Hl & Hret & ->).
  injection Hret as <- <-. injection Hp as <- _.
  assert (NoDup (sorted_items (state2hl b)).*1) as Hnd.
  { unfold sorted_items. rewrite merge_sort_Permutation. apply NoDup_fst_map_to_list. }
  destruct (report_loop_prefix _ _ _ _ _ _ _ H1 Hnd) as [Hin Hout]; [done|].
  destruct (report_loop_prefix2cpus _ _ _ _ _ _ _ H1 Hnd) as [Hcin _]; [done|].
  split_and!.
  - intros s. destruct (state2hl b !! s) as [hl|] eqn:E; cbn.
    + apply Hin. by apply sorted_items_elem.
    + rewrite Hout; [done|].
      intros ((s' & hl) & -> & Hi%sorted_items_elem)%list_elem_of_fmap.
      cbn in E. congruence.
  - intros s hl E. apply Hcin. by apply sorted_items_elem.
  - exists l1. rewrite app_nil_r. do 2 f_equal.
    destruct (decide (prefix2c tot1 = ∅)); by injection Hl as <-.
Qed.

Lemma key_le_trans {V} : Transitive (λ a b : string * V, String.le a.1 b.1).
Proof. intros a b c. apply transitivity. Qed.

Lemma key_le_total {V} : Total (λ a b : string * V, String.le a.1 b.1).
Proof. intros a b. apply total, _. Qed.

(** X21: a completed report on tables without a state bucket prints the
    grand total of zero and nothing else.  Otherwise the line it prints
    last is the per-state table: its rows are ordered by state, no state
    has two rows, and there is a row for exactly the states that have a
    bucket, with the number of distinct nodes of that bucket and the sum of
    their CPUs. *)
Theorem per_state_summary a snap b log tot :
  report a snap b = (log, Ok tot) →
  (state2hl b = ∅ → log = [Stdout (TotalLine 0 0 0 None)]) ∧
  (state2hl b ≠ ∅ →
     ∃ rows,
       last log = Some (Stdout (PrefixLine rows)) ∧
       StronglySorted (λ x y, String.le x.1.1 y.1.1) rows ∧
       NoDup rows.*1.*1 ∧
       ∀ s c p, (s, c, p) ∈ rows ↔
         ∃ hl, state2hl b !! s = Some hl ∧ c = count (uniq hl) ∧
               p = Zsum (cpus_of snap) (elements (members hl))).
Proof.
  intros Hr. split.
  { intros Hempty. revert Hr. unfold report, sorted_items.
    rewrite Hempty, map_to_list_empty. by intros [= <- _]. }
  destruct (report_tables _ _ _ _ _ Hr) as (Hc & Hp & body & ->).
  intros Hne.
  assert (prefix2c tot ≠ ∅) as Hne'.
  { intros He. apply Hne, map_eq. intros s. rewrite lookup_empty.
    specialize (Hc s). rewrite He, lookup_empty in Hc.
    by destruct (state2hl b !! s). }
  rewrite decide_False by done. eexists. split_and!.
  - by rewrite !app_assoc, last_snoc.
  - apply (StronglySorted_fmap _ (λ a b : string * Z, String.le a.1 b.1)); [done|].
    apply (@StronglySorted_merge_sort _ _ _ key_le_trans key_le_total).
  - rewrite <-!list_fmap_compose.
    change (NoDup (sorted_items (prefix2c tot)).*1).
    unfold sorted_items. rewrite merge_sort_Permutation. apply NoDup_fst_map_to_list.
  - intros s c p. rewrite list_elem_of_fmap. split.
    + intros ([s' c'] & [= -> -> ->] & Hin%sorted_items_elem). cbn [fst snd] in *.
      rewrite Hc in Hin. destruct (state2hl b !! s') as [hl|] eqn:E; [|done].
      injection Hin as <-. exists hl. split_and!; [done..|].
      unfold dd_get. by rewrite (Hp _ _ E).
    + intros (hl & E & -> & ->). exists (s, count (uniq hl)). split.
      * cbn [fst snd]. unfold dd_get. by rewrite (Hp _ _ E).
      * apply sorted_items_elem. by rewrite Hc, E.
Qed.

Lemma per_state_summary_witness :
  ∃ log tot rows,
    report plain_args mixed_pair mixed_buckets = (log, Ok tot) ∧
    last log = Some (Stdout (PrefixLine rows)) ∧
    ("MIXED", 2, 168) ∈ rows.
Proof.
  destruct (report plain_args mixed_pair mixed_buckets) as [log [tot|e]] eqn:E;
    [|by vm_compute in E].
  destruct (proj2 (per_state_summary plain_args mixed_pair mixed_buckets log tot E))
    as (rows & Hlast & _ & _ & Hrows).
  { intros He.
    assert (state2hl mixed_buckets !! "MIXED" = None) as Hx by (by rewrite He).
    vm_compute in Hx. discriminate Hx. }
  exists log, tot, rows. split_and!; [done..|].
  apply Hrows. exists ["workergpu055"; "worker5010"].
  split_and!; vm_compute; reflexivity.
Defined.

(** X22: when the expression is one of the fragment and no node
    qualifies, the script prints one line, the grand total with zero nodes
    and CPUs, and nothing else. *)
Theorem nothing_selected a snap fexp :
  compile (sanitize (expression (arg_features a))) = Some fexp →
  (∀ n, n ∈ values (nodes snap) → qualifies (arg_gres a) fexp n = Ok false) →
  main a snap = Some ([Stdout (TotalLine 0 0 0 None)], Ok totals0).
Proof.
  intros Hc Hq. unfold main. rewrite Hc. f_equal.
  assert (select (arg_gres a) fexp (nodes snap) = Ok no_buckets) as ->.
  { unfold select. revert Hq. generalize (values (nodes snap)). intros ns.
    induction ns as [|n ns IH]; intros Hq; [done|].
    cbn [for_each].
    assert (visit (arg_gres a) fexp no_buckets n = Ok no_buckets) as ->.
    { unfold visit. by rewrite Hq by left. }
    apply IH. intros m Hm. apply Hq. by right. }
  unfold lift. rewrite io_bind_ok. cbn [fst snd].
  assert (report a snap no_buckets = ([Stdout (TotalLine 0 0 0 None)], Ok totals0)) as ->;
    [|done].
  unfold report, sorted_items. cbn [state2hl no_buckets]. rewrite map_to_list_empty.
  done.
Qed.

Lemma nothing_selected_witness :
  main {| arg_gres := false; arg_node_lists := false; arg_summarize := None;
          arg_verbose := false; arg_features := ["amdgpu"] |} mixed_pair
  = Some ([Stdout (TotalLine 0 0 0 None)], Ok totals0).
Proof.
  apply (nothing_selected _ mixed_pair (EName "amdgpu")); [reflexivity|].
  intros n Hn. vm_compute in Hn.
  repeat (apply elem_of_cons in Hn as [->|Hn]; [reflexivity|]).
  by apply elem_of_nil in Hn.
Defined.

(** ** The listing mode *)

Lemma list_loop ns acc acc' :
  for_each list_step ns acc = Ok acc' →
  (∀ t, t ∈ acc'.1 ↔ t ∈ acc.1 ∨ ∃ n, n ∈ ns ∧ t ∈ getInfoFeatures n) ∧
  (∀ t, t ∈ acc'.2 ↔ t ∈ acc.2 ∨ ∃ n gl, n ∈ ns ∧ getInfoGres n = Ok gl ∧ t ∈ gl).
Proof.
  revert acc. induction ns as [|n ns IH]; intros acc; cbn [for_each].
  - intros [= <-]. split; intros t; (split; [by left|]).
    + by intros [?|(? & ?%elem_of_nil & _)].
    + by intros [?|(? & ? & ?%elem_of_nil & _)].
  - destruct (list_step acc n) as [acc1|] eqn:Hs; [|done].
    intros Hrest. change (for_each list_step ns acc1 = Ok acc') in Hrest.
    apply IH in Hrest as [H1 H2]. unfold list_step in Hs.
    destruct (getInfoGres n) as [gl|] eqn:Eg; [|done]. cbn in Hs. injection Hs as <-.
    cbn [fst snd] in *. split; intros t.
    + rewrite H1, elem_of_union, elem_of_list_to_set. split.
      * intros [[?|?]|(m & ? & ?)]; [by left|right..].
        -- exists n. split; [left|done].
        -- exists m. split; [by right|done].
      * intros [?|(m & [->|?]%elem_of_cons & ?)]; [by left; left|by left; right|].
        right. by exists m.
    + rewrite H2, elem_of_union, elem_of_list_to_set. split.
      * intros [[?|?]|(m & l & ? & ? & ?)]; [by left|right..].
        -- exists n, gl. split; [left|done].
        -- exists m, l. split; [by right|done].
      * intros [?|(m & l & [->|?]%elem_of_cons & Hl & ?)]; [by left; left| |].
        -- left. right. congruence.
        -- right. by exists m, l.
Qed.

Lemma list_step_returns_iff acc n :
  (∃ r, list_step acc n = Ok r) ↔ ∃ gl, getInfoGres n = Ok gl.
Proof.
  unfold list_step. destruct (getInfoGres n) as [gl|]; cbn.
  - split; by eexists.
  - split; by intros [? ?].
Qed.

Lemma sorted_elements_facts (X : gset string) :
  StronglySorted String.le (merge_sort String.le (elements X)) ∧
  NoDup (merge_sort String.le (elements X)) ∧
  ∀ t, t ∈ merge_sort String.le (elements X) ↔ t ∈ X.
Proof.
  split_and!.
  - apply StronglySorted_merge_sort; apply _.
  - rewrite merge_sort_Permutation. apply NoDup_elements.
  - intros t. by rewrite merge_sort_Permutation, elem_of_elements.
Qed.

(** X23: the listing returns exactly when the GRES tokens of every node
    can be read; the two lists it prints are sorted and free of
    duplicates, and hold the feature tokens, respectively the GRES tokens,
    of the nodes of the snapshot and nothing else. *)
Theorem list_known_complete (nodes : gmap string node) :
  ((∃ r, list_known nodes = Ok r) ↔
   ∀ n, n ∈ values nodes → ∃ gl, getInfoGres n = Ok gl) ∧
  ∀ fl gl, list_known nodes = Ok (fl, gl) →
    StronglySorted String.le fl ∧ NoDup fl ∧
    StronglySorted String.le gl ∧ NoDup gl ∧
    (∀ t, t ∈ fl ↔ ∃ n, n ∈ values nodes ∧ t ∈ getInfoFeatures n) ∧
    (∀ t, t ∈ gl ↔ ∃ n l, n ∈ values nodes ∧ getInfoGres n = Ok l ∧ t ∈ l).
Proof.
  split.
  - assert (∀ (s s' : gset string * gset string) x,
              (∃ r, list_step s x = Ok r) → ∃ r, list_step s' x = Ok r) as Hcompat.
    { intros s s' x H. by apply list_step_returns_iff, (list_step_returns_iff s). }
    pose proof (for_each_returns_iff list_step (values nodes) Hcompat (∅, ∅)) as Hiff.
    unfold list_known. split.
    + intros [r Hr] n Hn.
      apply (list_step_returns_iff (∅, ∅)), (proj1 Hiff); [|done].
      destruct (for_each list_step (values nodes) (∅, ∅)); [by eexists|done].
    + intros H. destruct (proj2 Hiff) as [acc E].
      { intros n Hn. by apply list_step_returns_iff, H. }
      rewrite E. by eexists.
  - intros fl gl. unfold list_known.
    destruct (for_each list_step (values nodes) (∅, ∅)) as [acc|] eqn:E; [|done].
    cbn. intros [= <- <-]. apply list_loop in E as [H1 H2].
    destruct (sorted_elements_facts acc.1) as (? & ? & Hf).
    destruct (sorted_elements_facts acc.2) as (? & ? & Hg).
    split_and!; [done..| |].
    + intros t. rewrite Hf, H1. cbn [fst]. split; [|by right].
      by intros [?%elem_of_empty|?].
    + intros t. rewrite Hg, H2. cbn [snd]. split; [|by right].
      by intros [?%elem_of_empty|?].
Qed.

Lemma list_known_complete_witness :
  list_known (nodes mixed_pair)
  = Ok (["gpu"; "ib"; "nvlink"; "rome"; "skylake"; "sxm2"; "v100"; "v100-32gb"],
        ["v100-32gb"]) ∧
  ∃ n, n ∈ values (nodes mixed_pair) ∧ "rome" ∈ getInfoFeatures n.
Proof.
  assert (list_known (nodes mixed_pair)
          = Ok (["gpu"; "ib"; "nvlink"; "rome"; "skylake"; "sxm2"; "v100"; "v100-32gb"],
                ["v100-32gb"])) as E by (vm_compute; reflexivity).
  split; [exact E|].
  destruct (proj2 (list_known_complete (nodes mixed_pair)) _ _ E)
    as (_ & _ & _ & _ & Hf & _).
  apply Hf. repeat constructor.
Defined.

(** ** The jobs of every host *)

Lemma dd_get_add_job j d h' h :
  dd_get [] (add_job j d h') h =
  dd_get [] d h ++ (if decide (h = h') then [j] else []).
Proof.
  unfold add_job, dd_get. destruct (decide (h = h')) as [->|Hne].
  - by rewrite lookup_insert_eq.
  - rewrite lookup_insert_ne by done. by rewrite app_nil_r.
Qed.

Lemma dd_get_foldl_add_job j hs d h :
  dd_get [] (foldl (add_job j) d hs) h =
  dd_get [] d h ++ replicate (length (filter (eq h) hs)) j.
Proof.
  revert d. induction hs as [|h' hs IH]; intros d; cbn [foldl].
  - by rewrite app_nil_r.
  - rewrite IH, dd_get_add_job, <-app_assoc. f_equal.
    rewrite filter_cons. by destruct (decide (h = h')).
Qed.

(** X24: the job table maps a host to the running jobs whose node list
    names it, in the order of the job list and once for every time the
    expanded node list names the host; jobs in another state leave no
    trace. *)
Theorem h2jj_lists_running_jobs (expand : string → list string)
    (jobs : list job_entry) (h : string) :
  dd_get [] (build_h2jj expand jobs) h =
  jobs ≫= (λ j, if decide (job_state j = "RUNNING")
                then replicate (length (filter (eq h) (expand (job_nodes j))))
                               (job_fields j)
                else []).
Proof.
  unfold build_h2jj.
  rewrite <-(app_nil_l (jobs ≫= _)).
  change (@nil job) with (dd_get [] (∅ : gmap string (list job)) h) at 2.
  generalize (∅ : gmap string (list job)).
  induction jobs as [|j jobs IH]; intros d; cbn [foldl].
  - by rewrite app_nil_r.
  - rewrite IH, bind_cons, app_assoc. f_equal.
    destruct (decide (job_state j = "RUNNING")).
    + apply dd_get_foldl_add_job.
    + by rewrite app_nil_r.
Qed.
